(** * Pomodoro timer for VS Code: session state machine and rest scheduler

    Shallow embedding of [src/extension.ts].  The extension keeps one global
    [pomodoroState] record, one [currentTimer] handle and a handful of
    one-shot / periodic callbacks registered with the host's timer queue.
    The embedding makes that store explicit:

    - the global record and [currentTimer] are fields of [World];
    - [setTimeout] / [setInterval] / [clearTimeout] act on the list [timers]
      of pending callbacks, each callback being a constructor of [Callback]
      named after the closure it stands for;
    - [Date.now()] is the argument [now] of every handler: the clock is read
      as constant during one synchronous handler run and advances between
      events only;
    - [Math.random()] is the argument [rnd], an exact rational, so the
      interval arithmetic of line 211 is carried out without rounding;
    - calls into the host UI (status bar text, status bar messages, progress
      toasts, the completion dialog) are recorded in [statusBarItem],
      [shown] and [openDialogs].

    Millisecond timestamps and durations are integers ([Z]). *)

From Stdlib Require Import ZArith QArith List Bool Lia Floats.
Import ListNotations.
Local Open Scope Z_scope.

(** ** Data model (lines 6-30) *)

Record PomodoroState := mkState {
  isActive : bool;
  isPaused : bool;
  startTime : Z;
  pausedTime : Z;
  totalDuration : Z;
  intervalMin : Z;
  intervalMax : Z;
  restDuration : Z
}.

(** The closures handed to [setTimeout] / [setInterval]. *)
Inductive Callback :=
| RestTrigger                   (* line 213, armed by scheduleNextBreak *)
| StatusTick                    (* line 282, armed by updateStatusBar *)
| RestPrompt                    (* line 160, armed by triggerRestBreak *)
| CountdownTick (countdown : Z) (* line 172, the interval and its captured variable *)
| BreakOver.                    (* line 189, armed when the countdown ends *)

Record Timer := mkTimer {
  handle : nat;
  due : Q;
  callback : Callback
}.

(** What the host was asked to display. *)
Inductive Notification :=
| MsgStarted          (* line 79 *)
| MsgPaused           (* line 98 *)
| MsgResumed          (* line 112 *)
| MsgReset            (* line 134 *)
| MsgResting          (* line 177 *)
| ProgressRestTime    (* line 154 *)
| ProgressBreakOver   (* line 183 *)
| DialogCompleted.    (* line 237 *)

Inductive StatusText :=
| NotStarted
| PausedText (minutes seconds : Z)
| RunningText (minutes seconds : Z).

Record World := mkWorld {
  pomodoroState : PomodoroState;
  currentTimer : option nat;
  statusBarItem : StatusText;
  timers : list Timer;
  nextHandle : nat;
  openDialogs : nat;
  shown : list Notification
}.

Definition initialState : PomodoroState :=
  mkState false false 0 0 (90 * 60 * 1000) (3 * 60 * 1000) (5 * 60 * 1000) (10 * 1000).

(** The world right after [activate] (lines 33-67). *)
Definition initialWorld : World :=
  mkWorld initialState None NotStarted [] 0 0 [].

(** ** Field assignment *)

Definition setIsActive (b : bool) (s : PomodoroState) : PomodoroState :=
  mkState b (isPaused s) (startTime s) (pausedTime s)
          (totalDuration s) (intervalMin s) (intervalMax s) (restDuration s).

Definition setIsPaused (b : bool) (s : PomodoroState) : PomodoroState :=
  mkState (isActive s) b (startTime s) (pausedTime s)
          (totalDuration s) (intervalMin s) (intervalMax s) (restDuration s).

Definition setStartTime (t : Z) (s : PomodoroState) : PomodoroState :=
  mkState (isActive s) (isPaused s) t (pausedTime s)
          (totalDuration s) (intervalMin s) (intervalMax s) (restDuration s).

Definition setPausedTime (t : Z) (s : PomodoroState) : PomodoroState :=
  mkState (isActive s) (isPaused s) (startTime s) t
          (totalDuration s) (intervalMin s) (intervalMax s) (restDuration s).

Definition assign (f : PomodoroState -> PomodoroState) (w : World) : World :=
  mkWorld (f (pomodoroState w)) (currentTimer w) (statusBarItem w) (timers w)
          (nextHandle w) (openDialogs w) (shown w).

Definition setCurrentTimer (h : option nat) (w : World) : World :=
  mkWorld (pomodoroState w) h (statusBarItem w) (timers w)
          (nextHandle w) (openDialogs w) (shown w).

Definition setStatusBarItem (t : StatusText) (w : World) : World :=
  mkWorld (pomodoroState w) (currentTimer w) t (timers w)
          (nextHandle w) (openDialogs w) (shown w).

Definition setTimers (l : list Timer) (w : World) : World :=
  mkWorld (pomodoroState w) (currentTimer w) (statusBarItem w) l
          (nextHandle w) (openDialogs w) (shown w).

Definition setOpenDialogs (n : nat) (w : World) : World :=
  mkWorld (pomodoroState w) (currentTimer w) (statusBarItem w) (timers w)
          (nextHandle w) n (shown w).

Definition notify (n : Notification) (w : World) : World :=
  mkWorld (pomodoroState w) (currentTimer w) (statusBarItem w) (timers w)
          (nextHandle w) (openDialogs w) (shown w ++ [n]).

(** Statements of a handler run left to right. *)
Notation "w |> f" := (f w) (at level 45, left associativity, only parsing).

(** ** The host's timer queue *)

(** [setTimeout(cb, delay)] issued at clock value [now] with [at_ = now + delay];
    the handle it returns is [nextHandle] of the world it is applied to. *)
Definition setTimeout (cb : Callback) (at_ : Q) (w : World) : World :=
  mkWorld (pomodoroState w) (currentTimer w) (statusBarItem w)
          (timers w ++ [mkTimer (nextHandle w) at_ cb])
          (S (nextHandle w)) (openDialogs w) (shown w).

Definition clearTimeout (h : nat) (w : World) : World :=
  setTimers (filter (fun t => negb (Nat.eqb (handle t) h)) (timers w)) w.

Definition findTimer (h : nat) (w : World) : option Timer :=
  find (fun t => Nat.eqb (handle t) h) (timers w).

(** [if (currentTimer) { clearTimeout(currentTimer); currentTimer = undefined; }] *)
Definition clearCurrentTimer (w : World) : World :=
  match currentTimer w with
  | Some h => w |> clearTimeout h |> setCurrentTimer None
  | None => w
  end.

(** ** Predicates on the session *)

Definition running (w : World) : bool :=
  isActive (pomodoroState w) && negb (isPaused (pomodoroState w)).

Definition paused (w : World) : bool :=
  isActive (pomodoroState w) && isPaused (pomodoroState w).

(** ** getElapsedTime (lines 138-144) *)

Definition getElapsedTime (now : Z) (w : World) : Z :=
  let s := pomodoroState w in
  if isPaused s then pausedTime s
  else pausedTime s + (now - startTime s).

(** ** playNotificationSound (lines 290-293): empty body *)

Definition playNotificationSound (w : World) : World := w.

(** ** endPomodoro (lines 223-246) and updateStatusBar (lines 249-287)

    The two functions call each other: [updateStatusBar] calls [endPomodoro]
    when the remaining time of a running session is not positive, and
    [endPomodoro] calls [updateStatusBar] after clearing [isActive].  The
    callee is a parameter of [endPomodoro_with]; [updateStatusBar_fuel]
    closes the recursion with a depth bound. *)

Definition endPomodoro_with (updateStatusBar : World -> World) (w : World) : World :=
  w |> assign (setIsActive false)
    |> assign (setIsPaused false)
    |> clearCurrentTimer
    |> updateStatusBar
    |> playNotificationSound
    |> notify DialogCompleted
    |> (fun w' => setOpenDialogs (S (openDialogs w')) w').

Definition minutesOf (remaining : Z) : Z := remaining / (1000 * 60).

Definition secondsOf (remaining : Z) : Z := Z.rem remaining (1000 * 60) / 1000.

Fixpoint updateStatusBar_fuel (fuel : nat) (now : Z) (w : World) : World :=
  let s := pomodoroState w in
  if negb (isActive s) then w |> setStatusBarItem NotStarted
  else if isPaused s then
    let remaining := totalDuration s - getElapsedTime now w in
    w |> setStatusBarItem (PausedText (minutesOf remaining) (secondsOf remaining))
  else
    let remaining := totalDuration s - getElapsedTime now w in
    if remaining <=? 0 then
      match fuel with
      | O => w
      | S fuel' => endPomodoro_with (updateStatusBar_fuel fuel' now) w
      end
    else
      w |> setStatusBarItem (RunningText (minutesOf remaining) (secondsOf remaining))
        |> setTimeout StatusTick (inject_Z (now + 1000)).

(** One nested call suffices: it runs with [isActive = false]
    (see [updateStatusBar_fuel_enough]). *)
Definition updateStatusBar (now : Z) (w : World) : World :=
  updateStatusBar_fuel 1 now w.

Definition endPomodoro (now : Z) (w : World) : World :=
  endPomodoro_with (updateStatusBar now) w.

(** ** triggerRestBreak (lines 147-166) *)

Definition triggerRestBreak (now : Z) (w : World) : World :=
  let s := pomodoroState w in
  if negb (isActive s) || isPaused s then w
  else
    w |> playNotificationSound
      |> notify ProgressRestTime
      |> setTimeout RestPrompt (inject_Z (now + 3000)).

(** ** startRestCountdown (lines 169-197)

    [startRestCountdown] itself only initialises [countdown] and registers
    the interval; [countdownTick] is the body of the interval callback, run
    with the interval's own handle [h] and the current value [countdown] of
    the captured variable.  The queue entry of a firing interval has been
    taken out by [fire]; staying registered is putting it back for the next
    period, [clearInterval] is not putting it back. *)

Definition startRestCountdown (now : Z) (w : World) : World :=
  w |> setTimeout (CountdownTick 10) (inject_Z (now + 1000)).

Definition keepInterval (h : nat) (cb : Callback) (at_ : Q) (w : World) : World :=
  setTimers (timers w ++ [mkTimer h at_ cb]) w.

Definition countdownTick (h : nat) (countdown : Z) (now : Z) (w : World) : World :=
  let s := pomodoroState w in
  if negb (isActive s) || isPaused s then w
  else
    let w1 := w |> notify MsgResting in
    if 0 <? countdown then
      w1 |> keepInterval h (CountdownTick (countdown - 1)) (inject_Z (now + 1000))
    else
      w1 |> notify ProgressBreakOver
         |> setTimeout BreakOver (inject_Z (now + 0)).

(** ** scheduleNextBreak (lines 200-218) *)

Definition randomInterval (rnd : Q) (s : PomodoroState) : Q :=
  (rnd * inject_Z (intervalMax s - intervalMin s) + inject_Z (intervalMin s))%Q.

Definition scheduleNextBreak (now : Z) (rnd : Q) (w : World) : World :=
  let s := pomodoroState w in
  if negb (isActive s) || isPaused s then w
  else
    let elapsed := getElapsedTime now w in
    if totalDuration s <=? elapsed then endPomodoro now w
    else
      w |> setCurrentTimer (Some (nextHandle w))
        |> setTimeout RestTrigger (inject_Z now + randomInterval rnd s)%Q.

(** The same expression on IEEE doubles, the number type of the source. *)
Definition randomInterval_double (rnd intervalMin intervalMax : float) : float :=
  (rnd * (intervalMax - intervalMin) + intervalMin)%float.

(** The largest double below 1. *)
Definition largestRandom : float := (1 - Z.ldexp 1 (-53))%float.

(** ** Lifecycle transitions (lines 70-135) *)

Definition startPomodoro (now : Z) (rnd : Q) (w : World) : World :=
  w |> assign (setIsActive true)
    |> assign (setIsPaused false)
    |> assign (setStartTime now)
    |> assign (setPausedTime 0)
    |> updateStatusBar now
    |> scheduleNextBreak now rnd
    |> notify MsgStarted.

Definition pausePomodoro (now : Z) (w : World) : World :=
  let s := pomodoroState w in
  if negb (isActive s) || isPaused s then w
  else
    w |> assign (setIsPaused true)
      |> assign (fun s => setPausedTime (pausedTime s + (now - startTime s)) s)
      |> clearCurrentTimer
      |> updateStatusBar now
      |> notify MsgPaused.

Definition resumePomodoro (now : Z) (rnd : Q) (w : World) : World :=
  let s := pomodoroState w in
  if negb (isActive s) || negb (isPaused s) then w
  else
    w |> assign (setIsPaused false)
      |> assign (setStartTime now)
      |> updateStatusBar now
      |> scheduleNextBreak now rnd
      |> notify MsgResumed.

Definition stopPomodoro (now : Z) (w : World) : World :=
  w |> assign (setIsActive false)
    |> assign (setIsPaused false)
    |> clearCurrentTimer
    |> updateStatusBar now.

Definition resetPomodoro (now : Z) (w : World) : World :=
  w |> stopPomodoro now
    |> assign (setStartTime 0)
    |> assign (setPausedTime 0)
    |> updateStatusBar now
    |> notify MsgReset.

(** ** Commands registered by [activate] (lines 44-64) *)

Definition toggleCommand (now : Z) (rnd : Q) (w : World) : World :=
  let s := pomodoroState w in
  if isActive s && negb (isPaused s) then pausePomodoro now w
  else if isPaused s then resumePomodoro now rnd w
  else startPomodoro now rnd w.

Definition restCommand (now : Z) (w : World) : World :=
  let s := pomodoroState w in
  if isActive s && negb (isPaused s) then triggerRestBreak now w
  else w.

Definition resetCommand (now : Z) (w : World) : World :=
  resetPomodoro now w.

(** ** The event loop

    Between handler runs the host delivers one of: a command invocation, a
    pending timer callback, or the user's answer to the completion dialog
    (the [then] continuation of line 241). *)

Inductive Event :=
| Toggle
| Rest
| Reset
| Fire (h : nat)
| Select (again : bool).

Record Input := mkInput {
  at_time : Z;     (* value of Date.now() during the handler *)
  random : Q;      (* value of Math.random(), should the handler draw one *)
  event : Event
}.

Definition runCallback (t : Timer) (now : Z) (rnd : Q) (w : World) : World :=
  match callback t with
  | RestTrigger => if running w then triggerRestBreak now w else w
  | StatusTick => if running w then updateStatusBar now w else w
  | RestPrompt => startRestCountdown now w
  | CountdownTick countdown => countdownTick (handle t) countdown now w
  | BreakOver => scheduleNextBreak now rnd w
  end.

Definition fire (h : nat) (now : Z) (rnd : Q) (w : World) : World :=
  match findTimer h w with
  | Some t => w |> clearTimeout h |> runCallback t now rnd
  | None => w
  end.

Definition selectCompletion (again : bool) (now : Z) (rnd : Q) (w : World) : World :=
  match openDialogs w with
  | O => w
  | S n =>
      let w' := setOpenDialogs n w in
      if again then startPomodoro now rnd w' else w'
  end.

Definition step (i : Input) (w : World) : World :=
  match event i with
  | Toggle => toggleCommand (at_time i) (random i) w
  | Rest => restCommand (at_time i) w
  | Reset => resetCommand (at_time i) w
  | Fire h => fire h (at_time i) (random i) w
  | Select again => selectCompletion again (at_time i) (random i) w
  end.

Definition run (trace : list Input) (w : World) : World :=
  fold_left (fun w i => step i w) trace w.

(** A trace the host can really produce: the clock never goes back, the
    random source stays in [0,1), a fired timer is pending, due, and no
    other pending timer is due strictly before it, and a dialog answer
    needs an open dialog. *)

Definition earliestDue (t : Timer) (w : World) : bool :=
  forallb (fun t' => Qle_bool (due t) (due t')) (timers w).

Definition admissible (prev : Z) (i : Input) (w : World) : bool :=
  (prev <=? at_time i)
  && Qle_bool 0 (random i) && negb (Qle_bool 1 (random i))
  && match event i with
     | Fire h =>
         match findTimer h w with
         | Some t => Qle_bool (due t) (inject_Z (at_time i)) && earliestDue t w
         | None => false
         end
     | Select _ => negb (Nat.eqb (openDialogs w) 0)
     | _ => true
     end.

Fixpoint admissibleTrace (prev : Z) (trace : list Input) (w : World) : bool :=
  match trace with
  | [] => true
  | i :: rest => admissible prev i w && admissibleTrace (at_time i) rest (step i w)
  end.

Definition armedRestTriggers (w : World) : list Timer :=
  filter (fun t => match callback t with RestTrigger => true | _ => false end) (timers w).

(** ** Direct calls of the three lifecycle functions *)

Inductive Transition := Start | Pause | Resume.

Record Call := mkCall {
  call_time : Z;
  call_random : Q;
  call_fn : Transition
}.

Definition transit (c : Call) (w : World) : World :=
  match call_fn c with
  | Start => startPomodoro (call_time c) (call_random c) w
  | Pause => pausePomodoro (call_time c) w
  | Resume => resumePomodoro (call_time c) (call_random c) w
  end.

Definition runCalls (calls : list Call) (w : World) : World :=
  fold_left (fun w c => transit c w) calls w.

(** Time spent in [Running] by the session in progress, following the
    specification's wording: the stretch from one call to the next (and from
    the last call to [now]) counts exactly when the session is Running
    during it, and a start opens a new session with nothing counted yet.
    [since] is the time of the previous call, [acc] what has been counted. *)
Fixpoint runningTime_from (calls : list Call) (w : World) (since acc now : Z) : Z :=
  match calls with
  | [] => if running w then acc + (now - since) else acc
  | c :: rest =>
      let counted := if running w then acc + (call_time c - since) else acc in
      let counted' := match call_fn c with Start => 0 | _ => counted end in
      runningTime_from rest (transit c w) (call_time c) counted' now
  end.

Definition runningTime (calls : list Call) (now : Z) : Z :=
  runningTime_from calls initialWorld 0 0 now.

(** ** Concrete sessions *)

Definition half : Q := 1 # 2.

Definition ev (t : Z) (e : Event) : Input := mkInput t half e.

(** Start at 0, manual rest at 500, the rest prompt's 3 s delay, and the
    first ten countdown ticks, with every one-second status tick fired on
    time in between. *)
Definition restSession_tenTicks : list Input :=
  [ ev 0 Toggle; ev 500 Rest;
    ev 1000 (Fire 0); ev 2000 (Fire 3); ev 3000 (Fire 4);
    ev 3500 (Fire 2);
    ev 4000 (Fire 5);
    ev 4500 (Fire 6); ev 5000 (Fire 7);
    ev 5500 (Fire 6); ev 6000 (Fire 8);
    ev 6500 (Fire 6); ev 7000 (Fire 9);
    ev 7500 (Fire 6); ev 8000 (Fire 10);
    ev 8500 (Fire 6); ev 9000 (Fire 11);
    ev 9500 (Fire 6); ev 10000 (Fire 12);
    ev 10500 (Fire 6); ev 11000 (Fire 13);
    ev 11500 (Fire 6); ev 12000 (Fire 14);
    ev 12500 (Fire 6); ev 13000 (Fire 15);
    ev 13500 (Fire 6); ev 14000 (Fire 16) ]%nat.

(** The eleventh tick of the same countdown. *)
Definition restSession_eleventhTick : list Input :=
  restSession_tenTicks ++ [ ev 14500 (Fire 6%nat) ].

(** ... and the zero-delay callback it registered. *)
Definition restSession_rearmed : list Input :=
  restSession_eleventhTick ++ [ ev 14500 (Fire 18%nat) ].

(** ** Derived notions used by the statements *)

(** The record a session is left with when it is stopped or completes. *)
Definition ended (s : PomodoroState) : PomodoroState :=
  setIsPaused false (setIsActive false s).

(** A handler that leaves the record alone or ends the session. *)
Definition keepsOrEnds (f : World -> World) : Prop :=
  forall w, pomodoroState (f w) = pomodoroState w
         \/ pomodoroState (f w) = ended (pomodoroState w).

(** The records left by a start, a pause and a resume at clock value [now]. *)
Definition started (now : Z) (s : PomodoroState) : PomodoroState :=
  setPausedTime 0 (setStartTime now (setIsPaused false (setIsActive true s))).

Definition banked (now : Z) (s : PomodoroState) : PomodoroState :=
  setPausedTime (pausedTime s + (now - startTime s)) (setIsPaused true s).

Definition resumed (now : Z) (s : PomodoroState) : PomodoroState :=
  setStartTime now (setIsPaused false s).

(** One event, seen on the record alone. *)
Inductive sessionStep (s : PomodoroState) : PomodoroState -> Prop :=
| ss_keep : sessionStep s s
| ss_end : sessionStep s (ended s)
| ss_start now : sessionStep s (started now s)
| ss_start_end now : sessionStep s (ended (started now s))
| ss_pause now :
    isActive s = true -> isPaused s = false -> sessionStep s (banked now s)
| ss_resume now :
    isActive s = true -> isPaused s = true -> sessionStep s (resumed now s)
| ss_resume_end now :
    isActive s = true -> isPaused s = true -> sessionStep s (ended (resumed now s))
| ss_reset : sessionStep s (setPausedTime 0 (setStartTime 0 (ended s))).

(** The four duration constants agree. *)
Definition sameConstants (s s' : PomodoroState) : Prop :=
  totalDuration s' = totalDuration s /\ intervalMin s' = intervalMin s
  /\ intervalMax s' = intervalMax s /\ restDuration s' = restDuration s.

(** The invariant [isPaused => isActive]. *)
Definition pausedImpliesActive (s : PomodoroState) : Prop :=
  isPaused s = true -> isActive s = true.

(** The timer queue once the timer held in [currentTimer] is cancelled. *)
Definition withoutCurrent (w : World) : list Timer :=
  match currentTimer w with
  | Some h => filter (fun t => negb (Nat.eqb (handle t) h)) (timers w)
  | None => timers w
  end.

(** What [runningTime_from] has counted agrees with the record: while
    Paused the count is the banked time, while Running the count and the
    banked time are both short of the stretch since [since] / [startTime]. *)
Definition accounted (w : World) (since acc : Z) : Prop :=
  isActive (pomodoroState w) = true ->
  if isPaused (pomodoroState w)
  then acc = pausedTime (pomodoroState w)
  else acc - since = pausedTime (pomodoroState w) - startTime (pomodoroState w).

(** What the host was asked to show, and the zero-delay callbacks pending. *)
Definition breakOverShown (w : World) : bool :=
  existsb (fun n => match n with ProgressBreakOver => true | _ => false end) (shown w).

Definition restingShown (w : World) : nat :=
  length (filter (fun n => match n with MsgResting => true | _ => false end) (shown w)).

Definition armedBreakOver (w : World) : list Timer :=
  filter (fun t => match callback t with BreakOver => true | _ => false end) (timers w).

(** ** deactivate (lines 296-303)

    [currentTimer] is cleared in the queue but the variable keeps its value;
    the status bar item created by [activate] is disposed. *)

Record Shutdown := mkShutdown {
  finalWorld : World;
  statusBarDisposed : bool
}.

Definition deactivate (w : World) : Shutdown :=
  mkShutdown
    (match currentTimer w with
     | Some h => w |> clearTimeout h
     | None => w
     end)
    true.

(** ** Well-formed timer queues *)

(** Handles are issued in increasing order, so a pending handle is below the
    next one to be issued and no two pending callbacks share a handle. *)
Definition handlesFresh (w : World) : Prop :=
  Forall (fun t => (handle t < nextHandle w)%nat) (timers w).

Definition handlesDistinct (w : World) : Prop :=
  NoDup (map handle (timers w)).

(** [currentTimer] holds a handle that was issued, and a pending callback
    under that handle is a rest trigger. *)
Definition trackedIsRestTrigger (w : World) : Prop :=
  forall h, currentTimer w = Some h ->
    (h < nextHandle w)%nat
    /\ forall t, In t (timers w) -> handle t = h -> callback t = RestTrigger.

Definition queueOk (w : World) : Prop :=
  handlesFresh w /\ handlesDistinct w /\ trackedIsRestTrigger w.

(** A wake-up is tracked only while the session is Running. *)
Definition trackedOnlyWhileRunning (w : World) : Prop :=
  running w = false -> currentTimer w = None.

(** The timer [h] fired once at each of the given clock values. *)
Definition fireAt (h : nat) (rnd : Q) (times : list Z) : list Input :=
  map (fun t => mkInput t rnd (Fire h)) times.

(** The remaining time the status bar renders. *)
Definition remainingTime (now : Z) (w : World) : Z :=
  totalDuration (pomodoroState w) - getElapsedTime now w.

(** The world [w'] is [w] with the countdown interval [h] at the end of the
    queue, its captured counter at [c], and [k] "resting" messages shown
    since the countdown was registered. *)
Definition countingDown (w : World) (h : nat) (c : Z) (k : nat) (w' : World) : Prop :=
  pomodoroState w' = pomodoroState w
  /\ currentTimer w' = currentTimer w
  /\ nextHandle w' = S h
  /\ shown w' = shown w ++ repeat MsgResting k
  /\ exists d, timers w' = timers w ++ [mkTimer h d (CountdownTick c)].

(** ** Clock discipline *)

(** The clock value of the last input of a trace that started at [prev]. *)
Definition lastTime (prev : Z) (trace : list Input) : Z :=
  fold_left (fun _ i => at_time i) trace prev.

(** The clock never goes back along the trace. *)
Fixpoint clockMonotone (prev : Z) (trace : list Input) : Prop :=
  match trace with
  | [] => True
  | i :: rest => prev <= at_time i /\ clockMonotone (at_time i) rest
  end.

(** Nothing negative is banked and the clock mark is not in the future. *)
Definition clockOk (prev : Z) (s : PomodoroState) : Prop :=
  0 <= prev /\ 0 <= pausedTime s /\ startTime s <= prev.

(** * Properties *)

(** ** How the handlers touch [pomodoroState] *)

Section StateFrame.
Variable w : World.

Lemma state_assign f : pomodoroState (assign f w) = f (pomodoroState w).
Proof. reflexivity. Qed.

Lemma state_setCurrentTimer h : pomodoroState (setCurrentTimer h w) = pomodoroState w.
Proof. reflexivity. Qed.

Lemma state_setStatusBarItem t : pomodoroState (setStatusBarItem t w) = pomodoroState w.
Proof. reflexivity. Qed.

Lemma state_setTimers l : pomodoroState (setTimers l w) = pomodoroState w.
Proof. reflexivity. Qed.

Lemma state_setOpenDialogs n : pomodoroState (setOpenDialogs n w) = pomodoroState w.
Proof. reflexivity. Qed.

Lemma state_notify n : pomodoroState (notify n w) = pomodoroState w.
Proof. reflexivity. Qed.

Lemma state_setTimeout cb d : pomodoroState (setTimeout cb d w) = pomodoroState w.
Proof. reflexivity. Qed.

Lemma state_clearTimeout h : pomodoroState (clearTimeout h w) = pomodoroState w.
Proof. reflexivity. Qed.

Lemma state_keepInterval h cb d : pomodoroState (keepInterval h cb d w) = pomodoroState w.
Proof. reflexivity. Qed.

Lemma state_clearCurrentTimer : pomodoroState (clearCurrentTimer w) = pomodoroState w.
Proof. unfold clearCurrentTimer. destruct (currentTimer w); reflexivity. Qed.

Lemma state_startRestCountdown now :
  pomodoroState (startRestCountdown now w) = pomodoroState w.
Proof. reflexivity. Qed.

Lemma state_triggerRestBreak now :
  pomodoroState (triggerRestBreak now w) = pomodoroState w.
Proof. unfold triggerRestBreak. destruct (_ || _); reflexivity. Qed.

Lemma state_countdownTick h c now :
  pomodoroState (countdownTick h c now w) = pomodoroState w.
Proof.
  unfold countdownTick. destruct (_ || _); [reflexivity|].
  destruct (0 <? c); reflexivity.
Qed.
End StateFrame.

Create Rewrite HintDb frame.

#[local] Hint Rewrite state_assign state_setCurrentTimer state_setStatusBarItem
  state_setTimers state_setOpenDialogs state_notify state_setTimeout
  state_clearTimeout state_keepInterval state_clearCurrentTimer
  state_startRestCountdown state_triggerRestBreak state_countdownTick : frame.

Lemma ended_idem s : ended (ended s) = ended s.
Proof. reflexivity. Qed.

Lemma updateStatusBar_fuel_inactive fuel now w :
  isActive (pomodoroState w) = false ->
  updateStatusBar_fuel fuel now w = setStatusBarItem NotStarted w.
Proof. intros H. destruct fuel; simpl; rewrite H; reflexivity. Qed.

Lemma updateStatusBar_fuel_eq fuel now w :
  updateStatusBar_fuel fuel now w =
  let s := pomodoroState w in
  if negb (isActive s) then w |> setStatusBarItem NotStarted
  else if isPaused s then
    let remaining := totalDuration s - getElapsedTime now w in
    w |> setStatusBarItem (PausedText (minutesOf remaining) (secondsOf remaining))
  else
    let remaining := totalDuration s - getElapsedTime now w in
    if remaining <=? 0 then
      match fuel with
      | O => w
      | S fuel' => endPomodoro_with (updateStatusBar_fuel fuel' now) w
      end
    else
      w |> setStatusBarItem (RunningText (minutesOf remaining) (secondsOf remaining))
        |> setTimeout StatusTick (inject_Z (now + 1000)).
Proof. destruct fuel; reflexivity. Qed.

Lemma endPomodoro_with_unfold fuel now w :
  endPomodoro_with (updateStatusBar_fuel fuel now) w =
  w |> assign ended
    |> clearCurrentTimer
    |> setStatusBarItem NotStarted
    |> notify DialogCompleted
    |> (fun w' => setOpenDialogs (S (openDialogs w')) w').
Proof.
  unfold endPomodoro_with, playNotificationSound.
  rewrite updateStatusBar_fuel_inactive; [reflexivity|].
  now autorewrite with frame.
Qed.

(** The depth bound of [updateStatusBar_fuel] is never reached from 1 on. *)
Lemma updateStatusBar_fuel_enough fuel now w :
  updateStatusBar_fuel (S fuel) now w = updateStatusBar now w.
Proof.
  unfold updateStatusBar. rewrite !(updateStatusBar_fuel_eq (S _)). cbv zeta.
  destruct (negb _); [reflexivity|].
  destruct (isPaused _); [reflexivity|].
  destruct (_ <=? 0); [|reflexivity].
  now rewrite !endPomodoro_with_unfold.
Qed.

Lemma endPomodoro_unfold now w :
  endPomodoro now w =
  w |> assign ended
    |> clearCurrentTimer
    |> setStatusBarItem NotStarted
    |> notify DialogCompleted
    |> (fun w' => setOpenDialogs (S (openDialogs w')) w').
Proof. apply (endPomodoro_with_unfold 1). Qed.

Lemma state_endPomodoro now w :
  pomodoroState (endPomodoro now w) = ended (pomodoroState w).
Proof. rewrite endPomodoro_unfold. now autorewrite with frame. Qed.

Lemma updateStatusBar_unfold now w :
  updateStatusBar now w =
  let s := pomodoroState w in
  if negb (isActive s) then w |> setStatusBarItem NotStarted
  else if isPaused s then
    let remaining := totalDuration s - getElapsedTime now w in
    w |> setStatusBarItem (PausedText (minutesOf remaining) (secondsOf remaining))
  else
    let remaining := totalDuration s - getElapsedTime now w in
    if remaining <=? 0 then endPomodoro now w
    else
      w |> setStatusBarItem (RunningText (minutesOf remaining) (secondsOf remaining))
        |> setTimeout StatusTick (inject_Z (now + 1000)).
Proof.
  unfold updateStatusBar at 1. rewrite updateStatusBar_fuel_eq. cbv zeta.
  destruct (negb _); [reflexivity|].
  destruct (isPaused _); [reflexivity|].
  destruct (_ <=? 0); [|reflexivity].
  now rewrite endPomodoro_unfold, endPomodoro_with_unfold.
Qed.

Lemma keepsOrEnds_compose f g :
  keepsOrEnds f -> keepsOrEnds g -> keepsOrEnds (fun w => g (f w)).
Proof.
  intros Hf Hg w. destruct (Hg (f w)) as [E|E], (Hf w) as [E'|E']; rewrite E, E';
    auto using ended_idem.
Qed.

Lemma keeps_keepsOrEnds f :
  (forall w, pomodoroState (f w) = pomodoroState w) -> keepsOrEnds f.
Proof. intros H w. left. apply H. Qed.

Lemma keepsOrEnds_updateStatusBar now : keepsOrEnds (updateStatusBar now).
Proof.
  intros w. rewrite updateStatusBar_unfold. cbv zeta.
  destruct (negb _); [now left|].
  destruct (isPaused _); [now left|].
  destruct (_ <=? 0); [right; apply state_endPomodoro | now left].
Qed.

Lemma keepsOrEnds_scheduleNextBreak now rnd : keepsOrEnds (scheduleNextBreak now rnd).
Proof.
  intros w. unfold scheduleNextBreak. cbv zeta.
  destruct (_ || _); [now left|].
  destruct (_ <=? _); [right; apply state_endPomodoro | now left].
Qed.

Lemma keepsOrEnds_runCallback t now rnd : keepsOrEnds (runCallback t now rnd).
Proof.
  intros w. unfold runCallback. destruct (callback t).
  - destruct (running w); left; now autorewrite with frame.
  - destruct (running w); [apply keepsOrEnds_updateStatusBar | now left].
  - now left.
  - left. now autorewrite with frame.
  - apply keepsOrEnds_scheduleNextBreak.
Qed.

(** ** Effect of the lifecycle transitions on the record *)

Lemma state_startPomodoro now rnd w :
  pomodoroState (startPomodoro now rnd w) = started now (pomodoroState w)
  \/ pomodoroState (startPomodoro now rnd w) = ended (started now (pomodoroState w)).
Proof.
  unfold startPomodoro. rewrite state_notify.
  apply (keepsOrEnds_compose _ _ (keepsOrEnds_updateStatusBar now)
           (keepsOrEnds_scheduleNextBreak now rnd)).
Qed.

Lemma pausePomodoro_noop now w :
  running w = false -> pausePomodoro now w = w.
Proof.
  unfold running, pausePomodoro. cbv zeta.
  destruct (isActive _), (isPaused _); simpl; congruence.
Qed.

Lemma state_pausePomodoro now w :
  running w = true ->
  pomodoroState (pausePomodoro now w) = banked now (pomodoroState w).
Proof.
  unfold running, pausePomodoro. cbv zeta. intros H.
  destruct (isActive (pomodoroState w)) eqn:Ea, (isPaused (pomodoroState w)) eqn:Ep;
    try discriminate. simpl negb. simpl orb. cbv iota.
  rewrite state_notify, updateStatusBar_unfold. cbv zeta.
  autorewrite with frame. simpl. rewrite Ea. simpl.
  now autorewrite with frame.
Qed.

Lemma resumePomodoro_noop now rnd w :
  paused w = false -> resumePomodoro now rnd w = w.
Proof.
  unfold paused, resumePomodoro. cbv zeta.
  destruct (isActive _), (isPaused _); simpl; congruence.
Qed.

Lemma state_resumePomodoro now rnd w :
  paused w = true ->
  pomodoroState (resumePomodoro now rnd w) = resumed now (pomodoroState w)
  \/ pomodoroState (resumePomodoro now rnd w) = ended (resumed now (pomodoroState w)).
Proof.
  unfold paused, resumePomodoro. cbv zeta. intros H.
  destruct (isActive (pomodoroState w)), (isPaused (pomodoroState w));
    try discriminate. simpl negb. simpl orb. cbv iota.
  rewrite state_notify.
  apply (keepsOrEnds_compose _ _ (keepsOrEnds_updateStatusBar now)
           (keepsOrEnds_scheduleNextBreak now rnd)).
Qed.

Lemma stopPomodoro_unfold now w :
  stopPomodoro now w =
  w |> assign ended |> clearCurrentTimer |> setStatusBarItem NotStarted.
Proof.
  unfold stopPomodoro, updateStatusBar.
  rewrite updateStatusBar_fuel_inactive; [reflexivity|].
  now autorewrite with frame.
Qed.

Lemma state_stopPomodoro now w :
  pomodoroState (stopPomodoro now w) = ended (pomodoroState w).
Proof. rewrite stopPomodoro_unfold. now autorewrite with frame. Qed.

Lemma state_resetPomodoro now w :
  pomodoroState (resetPomodoro now w) =
  setPausedTime 0 (setStartTime 0 (ended (pomodoroState w))).
Proof.
  unfold resetPomodoro, updateStatusBar.
  rewrite state_notify, updateStatusBar_fuel_inactive.
  - autorewrite with frame. now rewrite state_stopPomodoro.
  - autorewrite with frame. now rewrite state_stopPomodoro.
Qed.

(** ** One event, seen on the record alone *)

Create HintDb session.

#[local] Hint Constructors sessionStep : session.

Lemma sessionStep_keepsOrEnds f w :
  keepsOrEnds f -> sessionStep (pomodoroState w) (pomodoroState (f w)).
Proof. intros H. destruct (H w) as [E|E]; rewrite E; auto with session. Qed.

Lemma sessionStep_start now rnd w :
  sessionStep (pomodoroState w) (pomodoroState (startPomodoro now rnd w)).
Proof.
  destruct (state_startPomodoro now rnd w) as [E|E]; rewrite E; auto with session.
Qed.

Lemma sessionStep_pause now w :
  sessionStep (pomodoroState w) (pomodoroState (pausePomodoro now w)).
Proof.
  destruct (running w) eqn:R.
  - rewrite (state_pausePomodoro _ _ R). unfold running in R.
    apply andb_prop in R as [Ha Hp]. apply negb_true_iff in Hp.
    auto with session.
  - rewrite (pausePomodoro_noop _ _ R). auto with session.
Qed.

Lemma sessionStep_resume now rnd w :
  sessionStep (pomodoroState w) (pomodoroState (resumePomodoro now rnd w)).
Proof.
  destruct (paused w) eqn:P.
  - pose proof P as P'. unfold paused in P'. apply andb_prop in P' as [Ha Hp].
    destruct (state_resumePomodoro now rnd _ P) as [E|E]; rewrite E; auto with session.
  - rewrite (resumePomodoro_noop _ _ _ P). auto with session.
Qed.

Lemma sessionStep_toggle now rnd w :
  sessionStep (pomodoroState w) (pomodoroState (toggleCommand now rnd w)).
Proof.
  unfold toggleCommand. cbv zeta.
  destruct (_ && _); [apply sessionStep_pause|].
  destruct (isPaused _); [apply sessionStep_resume | apply sessionStep_start].
Qed.

Lemma sessionStep_step i w :
  sessionStep (pomodoroState w) (pomodoroState (step i w)).
Proof.
  unfold step. destruct (event i) as [| | |h|again].
  - apply sessionStep_toggle.
  - unfold restCommand. cbv zeta. destruct (_ && _);
      autorewrite with frame; auto with session.
  - unfold resetCommand. rewrite state_resetPomodoro. auto with session.
  - unfold fire. destruct (findTimer h w) as [t|]; [|auto with session].
    change (pomodoroState w) with (pomodoroState (clearTimeout h w)).
    apply sessionStep_keepsOrEnds, keepsOrEnds_runCallback.
  - unfold selectCompletion. destruct (openDialogs w) as [|n]; [auto with session|].
    destruct again; [|auto with session].
    change (pomodoroState w) with (pomodoroState (setOpenDialogs n w)).
    apply sessionStep_start.
Qed.

Lemma run_app tr1 tr2 w : run (tr1 ++ tr2) w = run tr2 (run tr1 w).
Proof. apply fold_left_app. Qed.

Lemma run_invariant (P : PomodoroState -> Prop) :
  (forall s s', sessionStep s s' -> P s -> P s') ->
  forall trace w, P (pomodoroState w) -> P (pomodoroState (run trace w)).
Proof.
  intros Hstep trace. induction trace as [|i trace IH]; intros w Hw; [exact Hw|].
  simpl. apply IH. eapply Hstep; [apply sessionStep_step | exact Hw].
Qed.

(** ** The four duration constants are never assigned *)

Lemma sessionStep_constants s s' : sessionStep s s' -> sameConstants s s'.
Proof. intros H. destruct H; repeat split. Qed.

Lemma run_constants trace :
  sameConstants initialState (pomodoroState (run trace initialWorld)).
Proof.
  apply (run_invariant (sameConstants initialState)); [|repeat split].
  intros s s' Hs (H1 & H2 & H3 & H4).
  destruct (sessionStep_constants _ _ Hs) as (K1 & K2 & K3 & K4).
  repeat split; congruence.
Qed.

(** ** The invariant [isPaused => isActive] *)

Lemma sessionStep_pausedImpliesActive s s' :
  sessionStep s s' -> pausedImpliesActive s -> pausedImpliesActive s'.
Proof.
  unfold pausedImpliesActive. intros H Hs.
  destruct H; simpl; auto; discriminate.
Qed.

(** ** Projections of the worlds left by stop and completion *)

Lemma find_filter_out h (l : list Timer) :
  find (fun t => Nat.eqb (handle t) h)
       (filter (fun t => negb (Nat.eqb (handle t) h)) l) = None.
Proof.
  induction l as [|t l IH]; [reflexivity|]. simpl.
  destruct (Nat.eqb (handle t) h) eqn:E; simpl; [exact IH|].
  now rewrite E.
Qed.

Lemma stopPomodoro_fields now w :
  currentTimer (stopPomodoro now w) = None
  /\ timers (stopPomodoro now w) = withoutCurrent w
  /\ nextHandle (stopPomodoro now w) = nextHandle w
  /\ shown (stopPomodoro now w) = shown w
  /\ openDialogs (stopPomodoro now w) = openDialogs w.
Proof.
  rewrite stopPomodoro_unfold. unfold withoutCurrent, clearCurrentTimer.
  destruct w as [s ct sb ts nh od sh]. simpl. destruct ct; simpl; repeat split.
Qed.

Lemma endPomodoro_fields now w :
  currentTimer (endPomodoro now w) = None
  /\ timers (endPomodoro now w) = withoutCurrent w
  /\ nextHandle (endPomodoro now w) = nextHandle w
  /\ shown (endPomodoro now w) = shown w ++ [DialogCompleted]
  /\ openDialogs (endPomodoro now w) = S (openDialogs w).
Proof.
  rewrite endPomodoro_unfold. unfold withoutCurrent, clearCurrentTimer.
  destruct w as [s ct sb ts nh od sh]. simpl. destruct ct; simpl; repeat split.
Qed.

Lemma withoutCurrent_cancelled w h :
  currentTimer w = Some h ->
  find (fun t => Nat.eqb (handle t) h) (withoutCurrent w) = None.
Proof. intros E. unfold withoutCurrent. rewrite E. apply find_filter_out. Qed.

Lemma withoutCurrent_incl w t : In t (withoutCurrent w) -> In t (timers w).
Proof.
  unfold withoutCurrent. destruct (currentTimer w); [|auto].
  intros H. apply filter_In in H. tauto.
Qed.

(** ** Claims *)

(** C7. Invalid pause and resume attempts are silent no-ops: [pausePomodoro]
    called in any state other than Running, and [resumePomodoro] called in
    any state other than Paused, return the whole world unchanged (record,
    [currentTimer], timer queue, status bar and notifications alike).  Both
    are total functions: there is no error result to signal. *)
Theorem C7_invalid_pause_resume_are_noops :
  (forall now w, running w = false -> pausePomodoro now w = w)
  /\ (forall now rnd w, paused w = false -> resumePomodoro now rnd w = w).
Proof.
  split; [exact pausePomodoro_noop | exact resumePomodoro_noop].
Qed.

Lemma C7_witness :
  let idle := initialWorld in
  let run1 := run [ev 0 Toggle] initialWorld in
  let paused1 := run [ev 0 Toggle; ev 700 Toggle] initialWorld in
  (running idle = false /\ pausePomodoro 5 idle = idle)
  /\ (running paused1 = false /\ pausePomodoro 900 paused1 = paused1)
  /\ (paused idle = false /\ resumePomodoro 5 half idle = idle)
  /\ (paused run1 = false /\ resumePomodoro 5 half run1 = run1).
Proof.
  cbv zeta.
  assert (Hidle : running initialWorld = false) by (vm_compute; reflexivity).
  assert (Hpaused : running (run [ev 0 Toggle; ev 700 Toggle] initialWorld) = false)
    by (vm_compute; reflexivity).
  assert (Hidle' : paused initialWorld = false) by (vm_compute; reflexivity).
  assert (Hrun : paused (run [ev 0 Toggle] initialWorld) = false)
    by (vm_compute; reflexivity).
  split; [|split; [|split]]; (split; [assumption|]).
  - exact (proj1 C7_invalid_pause_resume_are_noops 5 _ Hidle).
  - exact (proj1 C7_invalid_pause_resume_are_noops 900 _ Hpaused).
  - exact (proj2 C7_invalid_pause_resume_are_noops 5 half _ Hidle').
  - exact (proj2 C7_invalid_pause_resume_are_noops 5 half _ Hrun).
Defined.

(** C9. [stopPomodoro], from any state, clears [isActive] and [isPaused] and
    cancels the pending wake-up held in [currentTimer], and it leaves
    [pausedTime] and [startTime] as they were: nothing is banked. *)
Theorem C9_stop_banks_nothing : forall now w,
  let w' := stopPomodoro now w in
  isActive (pomodoroState w') = false
  /\ isPaused (pomodoroState w') = false
  /\ currentTimer w' = None
  /\ timers w' = withoutCurrent w
  /\ match currentTimer w with
     | Some h => findTimer h w' = None
     | None => timers w' = timers w
     end
  /\ pausedTime (pomodoroState w') = pausedTime (pomodoroState w)
  /\ startTime (pomodoroState w') = startTime (pomodoroState w).
Proof.
  intros now w w'. subst w'.
  destruct (stopPomodoro_fields now w) as (Hc & Ht & _).
  rewrite state_stopPomodoro. repeat split; auto.
  destruct (currentTimer w) as [h|] eqn:E.
  - unfold findTimer. rewrite Ht. now apply withoutCurrent_cancelled.
  - rewrite Ht. unfold withoutCurrent. now rewrite E.
Qed.

(** C10. Completion has no representation of its own: [endPomodoro] clears
    exactly [isActive] and [isPaused], cancels the timer in [currentTimer]
    and leaves [startTime], [pausedTime] and the constants alone, so the
    record, [currentTimer] and the timer queue it leaves are those
    [stopPomodoro] leaves from the same world. *)
Theorem C10_completed_is_stopped : forall now w,
  pomodoroState (endPomodoro now w)
    = setIsPaused false (setIsActive false (pomodoroState w))
  /\ startTime (pomodoroState (endPomodoro now w)) = startTime (pomodoroState w)
  /\ pausedTime (pomodoroState (endPomodoro now w)) = pausedTime (pomodoroState w)
  /\ pomodoroState (endPomodoro now w) = pomodoroState (stopPomodoro now w)
  /\ currentTimer (endPomodoro now w) = currentTimer (stopPomodoro now w)
  /\ timers (endPomodoro now w) = timers (stopPomodoro now w).
Proof.
  intros now w.
  destruct (stopPomodoro_fields now w) as (Hc & Ht & _).
  destruct (endPomodoro_fields now w) as (Hc' & Ht' & _).
  rewrite state_endPomodoro, state_stopPomodoro, Hc, Hc', Ht, Ht'.
  repeat split.
Qed.

(** C5 (as stated, refuted). Resetting the freshly activated extension at a
    real clock value leaves [getElapsedTime] equal to that clock value, not
    to 0: the reset state is not paused, so the function adds
    [now - startTime] with [startTime = 0]. *)
Lemma C5_counterexample :
  ~ (getElapsedTime 1700000000000 (resetPomodoro 1700000000000 initialWorld) = 0
     /\ isActive (pomodoroState (resetPomodoro 1700000000000 initialWorld)) = false
     /\ isPaused (pomodoroState (resetPomodoro 1700000000000 initialWorld)) = false).
Proof. intros [H _]. vm_compute in H. discriminate H. Qed.

(** C5 (amended). After [resetPomodoro], from any prior state, the banked
    time [pausedTime] and [startTime] are exactly 0 and the state is Idle
    ([isActive = false], [isPaused = false]); [getElapsedTime] read at clock
    value [t] then returns [t]. *)
Theorem C5_reset_zeroes_the_record : forall now w t,
  let w' := resetPomodoro now w in
  pausedTime (pomodoroState w') = 0
  /\ startTime (pomodoroState w') = 0
  /\ isActive (pomodoroState w') = false
  /\ isPaused (pomodoroState w') = false
  /\ getElapsedTime t w' = t.
Proof.
  intros now w t w'. subst w'. unfold getElapsedTime. cbv zeta.
  rewrite state_resetPomodoro. simpl. repeat split. lia.
Qed.

(** C2. When [scheduleNextBreak] runs in the Running state with the elapsed
    time at or beyond [totalDuration], it completes the session instead of
    arming: the result is [endPomodoro]'s, with [isActive] and [isPaused]
    false, the timer of [currentTimer] cancelled, no timer registered
    ([nextHandle] unchanged, the queue only shrinks) and in particular no
    rest trigger that was not already pending. *)
Theorem C2_completion_instead_of_arming : forall now rnd w,
  running w = true ->
  totalDuration (pomodoroState w) <= getElapsedTime now w ->
  let w' := scheduleNextBreak now rnd w in
  w' = endPomodoro now w
  /\ isActive (pomodoroState w') = false
  /\ isPaused (pomodoroState w') = false
  /\ currentTimer w' = None
  /\ (forall h, currentTimer w = Some h -> findTimer h w' = None)
  /\ timers w' = withoutCurrent w
  /\ nextHandle w' = nextHandle w
  /\ (forall t, In t (armedRestTriggers w') -> In t (armedRestTriggers w)).
Proof.
  intros now rnd w R T w'.
  assert (E : w' = endPomodoro now w).
  { subst w'. unfold scheduleNextBreak. cbv zeta.
    unfold running in R. apply andb_prop in R as [Ha Hp].
    apply negb_true_iff in Hp. rewrite Ha, Hp. simpl.
    apply Z.leb_le in T. now rewrite T. }
  rewrite E. destruct (endPomodoro_fields now w) as (Hc & Ht & Hn & _).
  rewrite state_endPomodoro.
  repeat split; auto.
  - intros h Hh. unfold findTimer. rewrite Ht. now apply withoutCurrent_cancelled.
  - intros t. unfold armedRestTriggers. rewrite !filter_In, Ht.
    intros [Hin Hcb]. split; [now apply withoutCurrent_incl | exact Hcb].
Qed.

Lemma C2_witness :
  let w := run [ev 0 Toggle] initialWorld in
  let w' := scheduleNextBreak 5400000 half w in
  w' = endPomodoro 5400000 w
  /\ isActive (pomodoroState w') = false
  /\ isPaused (pomodoroState w') = false
  /\ currentTimer w' = None
  /\ (forall h, currentTimer w = Some h -> findTimer h w' = None)
  /\ timers w' = withoutCurrent w
  /\ nextHandle w' = nextHandle w
  /\ (forall t, In t (armedRestTriggers w') -> In t (armedRestTriggers w)).
Proof.
  apply (C2_completion_instead_of_arming 5400000 half (run [ev 0 Toggle] initialWorld)).
  - vm_compute. reflexivity.
  - vm_compute. discriminate.
Defined.

(** C6. The invariant [isPaused => isActive] holds in the initial state, is
    preserved by each of start, pause, resume, stop, reset and completion
    from any world that satisfies it, and therefore holds after every
    sequence of commands, timer callbacks and dialog answers: no reachable
    state is paused without being active. *)
Theorem C6_paused_implies_active :
  pausedImpliesActive (pomodoroState initialWorld)
  /\ (forall now rnd w,
        pausedImpliesActive (pomodoroState w) ->
        pausedImpliesActive (pomodoroState (startPomodoro now rnd w))
        /\ pausedImpliesActive (pomodoroState (pausePomodoro now w))
        /\ pausedImpliesActive (pomodoroState (resumePomodoro now rnd w))
        /\ pausedImpliesActive (pomodoroState (stopPomodoro now w))
        /\ pausedImpliesActive (pomodoroState (resetPomodoro now w))
        /\ pausedImpliesActive (pomodoroState (endPomodoro now w)))
  /\ (forall trace,
        pausedImpliesActive (pomodoroState (run trace initialWorld))
        /\ ~ (isPaused (pomodoroState (run trace initialWorld)) = true
              /\ isActive (pomodoroState (run trace initialWorld)) = false)).
Proof.
  split; [discriminate|]. split.
  - intros now rnd w Hw. repeat split.
    + eapply sessionStep_pausedImpliesActive; [apply sessionStep_start | exact Hw].
    + eapply sessionStep_pausedImpliesActive; [apply sessionStep_pause | exact Hw].
    + eapply sessionStep_pausedImpliesActive; [apply sessionStep_resume | exact Hw].
    + rewrite state_stopPomodoro. discriminate.
    + rewrite state_resetPomodoro. discriminate.
    + rewrite state_endPomodoro. discriminate.
  - intros trace.
    assert (H : pausedImpliesActive (pomodoroState (run trace initialWorld))).
    { apply (run_invariant pausedImpliesActive);
        [exact sessionStep_pausedImpliesActive | discriminate]. }
    split; [exact H|]. intros [Hp Ha]. rewrite (H Hp) in Ha. discriminate.
Qed.

Lemma C6_witness :
  let w := run [ev 0 Toggle; ev 700 Toggle] initialWorld in
  isPaused (pomodoroState w) = true
  /\ pausedImpliesActive (pomodoroState w)
  /\ pausedImpliesActive (pomodoroState (pausePomodoro 900 w))
  /\ pausedImpliesActive (pomodoroState (resumePomodoro 900 half w)).
Proof.
  cbv zeta.
  assert (H : pausedImpliesActive
                (pomodoroState (run [ev 0 Toggle; ev 700 Toggle] initialWorld)))
    by (intros _; vm_compute; reflexivity).
  destruct (proj1 (proj2 C6_paused_implies_active) 900 half _ H)
    as (_ & Hpause & Hresume & _).
  split; [vm_compute; reflexivity|]. auto.
Defined.

(** ** The randomised interval *)

Lemma randomInterval_between rnd s :
  (0 <= rnd)%Q -> (rnd < 1)%Q -> intervalMin s <= intervalMax s ->
  (inject_Z (intervalMin s) <= randomInterval rnd s)%Q
  /\ (randomInterval rnd s <= inject_Z (intervalMax s))%Q.
Proof.
  intros H0 H1 Hle. unfold randomInterval.
  set (d := inject_Z (intervalMax s - intervalMin s)).
  assert (Hd : (0 <= d)%Q).
  { unfold d. change 0%Q with (inject_Z 0). rewrite <- Zle_Qle. lia. }
  assert (Hsum : (d + inject_Z (intervalMin s) == inject_Z (intervalMax s))%Q).
  { unfold d. rewrite <- inject_Z_plus. f_equiv. lia. }
  split.
  - rewrite <- (Qplus_0_l (inject_Z (intervalMin s))) at 1.
    apply Qplus_le_compat; [|apply Qle_refl].
    now apply Qmult_le_0_compat.
  - rewrite <- Hsum. apply Qplus_le_compat; [|apply Qle_refl].
    rewrite <- (Qmult_1_l d) at 2.
    apply Qmult_le_compat_r; [now apply Qlt_le_weak | exact Hd].
Qed.

(** On doubles the rounding of line 211 reaches both ends of the range: the
    smallest draw gives 180 000 and the largest draw below 1 gives 300 000
    exactly, which is why the upper bound is an inclusive one. *)
Example randomInterval_double_endpoints :
  (largestRandom <? 1)%float = true
  /\ randomInterval_double 0 180000 300000 = 180000%float
  /\ randomInterval_double largestRandom 180000 300000 = 300000%float.
Proof. repeat split; vm_compute; reflexivity. Qed.

(** C4. Whatever happened before (any sequence of events from activation)
    and whatever the random source returns in [0,1), the delay computed on
    line 211, [Math.random() * (intervalMax - intervalMin) + intervalMin],
    lies in [intervalMin, intervalMax], that is in [180000, 300000] ms, both
    ends included; and when [scheduleNextBreak] does arm (Running, elapsed
    time below [totalDuration]) the callback it registers is a rest trigger
    due exactly that delay after the current clock value. *)
Theorem C4_random_interval_within_bounds : forall trace now rnd,
  (0 <= rnd)%Q -> (rnd < 1)%Q ->
  let w := run trace initialWorld in
  let delay := randomInterval rnd (pomodoroState w) in
  (inject_Z (intervalMin (pomodoroState w)) <= delay)%Q
  /\ (delay <= inject_Z (intervalMax (pomodoroState w)))%Q
  /\ (inject_Z 180000 <= delay)%Q
  /\ (delay <= inject_Z 300000)%Q
  /\ (running w = true ->
      getElapsedTime now w < totalDuration (pomodoroState w) ->
      timers (scheduleNextBreak now rnd w)
        = timers w ++ [mkTimer (nextHandle w) (inject_Z now + delay) RestTrigger]
      /\ currentTimer (scheduleNextBreak now rnd w) = Some (nextHandle w)).
Proof.
  intros trace now rnd H0 H1 w delay.
  destruct (run_constants trace) as (_ & Hmin & Hmax & _).
  fold w in Hmin, Hmax. simpl in Hmin, Hmax.
  assert (Hle : intervalMin (pomodoroState w) <= intervalMax (pomodoroState w))
    by (rewrite Hmin, Hmax; lia).
  destruct (randomInterval_between rnd (pomodoroState w) H0 H1 Hle) as [Hlo Hhi].
  fold delay in Hlo, Hhi.
  split; [exact Hlo|]. split; [exact Hhi|].
  split; [now rewrite <- Hmin|]. split; [now rewrite <- Hmax|].
  intros R T. unfold scheduleNextBreak. cbv zeta.
  unfold running in R. apply andb_prop in R as [Ha Hp].
  apply negb_true_iff in Hp. rewrite Ha, Hp. simpl.
  apply Z.leb_gt in T. rewrite T. split; reflexivity.
Qed.

Lemma C4_witness :
  let w := run [ev 0 Toggle] initialWorld in
  let delay := randomInterval half (pomodoroState w) in
  (inject_Z 180000 <= delay)%Q /\ (delay <= inject_Z 300000)%Q
  /\ (delay == inject_Z 240000)%Q
  /\ timers (scheduleNextBreak 1000 half w)
       = timers w ++ [mkTimer (nextHandle w) (inject_Z 1000 + delay) RestTrigger].
Proof.
  cbv zeta.
  assert (H0 : (0 <= half)%Q) by (vm_compute; discriminate).
  assert (H1 : (half < 1)%Q) by (vm_compute; reflexivity).
  destruct (C4_random_interval_within_bounds [ev 0 Toggle] 1000 half H0 H1)
    as (_ & _ & Hlo & Hhi & Harm).
  split; [exact Hlo|]. split; [exact Hhi|]. split; [vm_compute; reflexivity|].
  apply Harm; vm_compute; reflexivity.
Defined.

(** ** Elapsed-time accounting *)

Lemma accounted_transit c w since acc :
  accounted w since acc ->
  accounted (transit c w) (call_time c)
    (match call_fn c with
     | Start => 0
     | _ => if running w then acc + (call_time c - since) else acc
     end).
Proof.
  unfold accounted, transit. intros Hw.
  destruct (call_fn c).
  - destruct (state_startPomodoro (call_time c) (call_random c) w) as [E|E];
      rewrite E; simpl; [lia | discriminate].
  - destruct (running w) eqn:R.
    + rewrite (state_pausePomodoro _ _ R). unfold running in R.
      apply andb_prop in R as [Ha Hp]. apply negb_true_iff in Hp.
      specialize (Hw Ha). rewrite Hp in Hw. simpl. lia.
    + rewrite (pausePomodoro_noop _ _ R). unfold running in R.
      intros Ha. specialize (Hw Ha). rewrite Ha in R. simpl in R.
      apply negb_false_iff in R. rewrite R in *. exact Hw.
  - destruct (paused w) eqn:P.
    + pose proof P as P'. unfold paused in P'. apply andb_prop in P' as [Ha Hp].
      specialize (Hw Ha). rewrite Hp in Hw.
      assert (R : running w = false) by (unfold running; now rewrite Ha, Hp).
      rewrite R.
      destruct (state_resumePomodoro (call_time c) (call_random c) _ P) as [E|E];
        rewrite E; simpl; [lia | discriminate].
    + rewrite (resumePomodoro_noop _ _ _ P). unfold paused in P.
      intros Ha. specialize (Hw Ha). rewrite Ha in P. simpl in P.
      unfold running. rewrite Ha, P in *. simpl. lia.
Qed.

Lemma runningTime_from_correct calls : forall w since acc now,
  accounted w since acc ->
  isActive (pomodoroState (runCalls calls w)) = true ->
  getElapsedTime now (runCalls calls w) = runningTime_from calls w since acc now.
Proof.
  induction calls as [|c calls IH]; intros w since acc now Hw Ha.
  - simpl in *. specialize (Hw Ha). unfold getElapsedTime, running. cbv zeta.
    rewrite Ha. destruct (isPaused (pomodoroState w)); simpl; lia.
  - simpl. apply IH; [|exact Ha].
    pose proof (accounted_transit c w since acc Hw) as H.
    destruct (call_fn c); exact H.
Qed.

(** C1 (as stated, refuted). Start at 0, pause at 6 000 000, resume at
    7 000 000: the resume finds the banked time beyond [totalDuration] and
    completes the session, after which nothing is Running; yet
    [getElapsedTime] read at 8 000 000 has gone on adding [now - startTime]
    and returns 7 000 000, while only 6 000 000 ms were spent Running. *)
Lemma C1_counterexample :
  let calls := [ mkCall 0 half Start; mkCall 6000000 half Pause;
                 mkCall 7000000 half Resume ] in
  running (runCalls calls initialWorld) = false
  /\ runningTime calls 8000000 = 6000000
  /\ getElapsedTime 8000000 (runCalls calls initialWorld) = 7000000
  /\ getElapsedTime 8000000 (runCalls calls initialWorld) <> runningTime calls 8000000.
Proof. vm_compute. repeat split; discriminate. Qed.

(** C1 (amended). For every sequence of start / pause / resume calls with
    given wall-clock times that leaves the session active (Running or
    Paused), the elapsed time ([pausedTime] if paused, else
    [pausedTime + (now - startTime)]) equals the sum of the durations of the
    Running segments of the session in progress, and while Paused it does
    not move with the clock.  In particular start at 0 and pause at 60 000
    give 60 000; resume at 120 000 and pause at 150 000 then give 90 000. *)
Theorem C1_elapsed_is_running_time :
  (forall calls now,
     isActive (pomodoroState (runCalls calls initialWorld)) = true ->
     getElapsedTime now (runCalls calls initialWorld) = runningTime calls now)
  /\ (forall calls now now',
     paused (runCalls calls initialWorld) = true ->
     getElapsedTime now (runCalls calls initialWorld)
       = getElapsedTime now' (runCalls calls initialWorld))
  /\ (forall r1 r2 now,
     getElapsedTime now
       (runCalls [ mkCall 0 r1 Start; mkCall 60000 r1 Pause ] initialWorld) = 60000
     /\ getElapsedTime now
       (runCalls [ mkCall 0 r1 Start; mkCall 60000 r1 Pause;
                   mkCall 120000 r2 Resume; mkCall 150000 r2 Pause ] initialWorld)
        = 90000).
Proof.
  split; [|split].
  - intros calls now Ha. apply runningTime_from_correct; [|exact Ha].
    intros H. discriminate H.
  - intros calls now now' P. unfold paused in P. apply andb_prop in P as [_ Hp].
    unfold getElapsedTime. cbv zeta. now rewrite Hp.
  - intros r1 r2 now. split; vm_compute; reflexivity.
Qed.

Lemma C1_witness :
  let calls := [ mkCall 0 half Start; mkCall 60000 half Pause;
                 mkCall 120000 half Resume; mkCall 150000 half Pause ] in
  isActive (pomodoroState (runCalls calls initialWorld)) = true
  /\ getElapsedTime 200000 (runCalls calls initialWorld) = runningTime calls 200000
  /\ runningTime calls 200000 = 90000
  /\ getElapsedTime 200000 (runCalls calls initialWorld)
     = getElapsedTime 999999 (runCalls calls initialWorld).
Proof.
  cbv zeta.
  split; [vm_compute; reflexivity|].
  split; [apply (proj1 C1_elapsed_is_running_time); vm_compute; reflexivity|].
  split; [vm_compute; reflexivity|].
  apply (proj1 (proj2 C1_elapsed_is_running_time)); vm_compute; reflexivity.
Defined.

(** ** One tick of the rest countdown *)

Lemma countdownTick_aborts h c now w :
  running w = false -> countdownTick h c now w = w.
Proof.
  unfold running, countdownTick. cbv zeta.
  destruct (isActive _), (isPaused _); simpl; congruence.
Qed.

Lemma countdownTick_counts h c now w :
  running w = true -> 0 < c ->
  countdownTick h c now w =
  w |> notify MsgResting
    |> keepInterval h (CountdownTick (c - 1)) (inject_Z (now + 1000)).
Proof.
  unfold running, countdownTick. cbv zeta. intros R Hc.
  apply andb_prop in R as [Ha Hp]. apply negb_true_iff in Hp.
  rewrite Ha, Hp. simpl. apply Z.ltb_lt in Hc. now rewrite Hc.
Qed.

Lemma countdownTick_finishes h c now w :
  running w = true -> c <= 0 ->
  countdownTick h c now w =
  w |> notify MsgResting
    |> notify ProgressBreakOver
    |> setTimeout BreakOver (inject_Z (now + 0)).
Proof.
  unfold running, countdownTick. cbv zeta. intros R Hc.
  apply andb_prop in R as [Ha Hp]. apply negb_true_iff in Hp.
  rewrite Ha, Hp. simpl. apply Z.ltb_ge in Hc. now rewrite Hc.
Qed.

(** ** The rest break on a concrete session *)

(** C3 (evaluated where it fails). A session is started at 0 and the manual
    rest command is issued at 500, while the rest trigger armed by the start
    (handle 1, due at 240 000) is pending.  When the countdown of that rest
    break ends, [scheduleNextBreak] arms a second rest trigger (handle 19)
    and overwrites [currentTimer] without cancelling handle 1: two rest
    triggers are armed at once, and a pause then cancels handle 19 only. *)
Theorem C3_two_rest_triggers_armed :
  let before := run restSession_eleventhTick initialWorld in
  let w := run restSession_rearmed initialWorld in
  admissibleTrace 0 restSession_rearmed initialWorld = true
  /\ map handle (armedRestTriggers before) = [1%nat]
  /\ currentTimer before = Some 1%nat
  /\ running w = true
  /\ map handle (armedRestTriggers w) = [1%nat; 19%nat]
  /\ currentTimer w = Some 19%nat
  /\ paused (step (ev 15000 Toggle) w) = true
  /\ map handle (armedRestTriggers (step (ev 15000 Toggle) w)) = [1%nat].
Proof. vm_compute. repeat split. Qed.

(** C8 (evaluated where it fails). In the same session the countdown is
    registered at 3 500 and ticks at 4 500, 5 500, ...  After ten ticks (the
    tenth at 13 500) the session is still Running, ten "resting" messages
    were shown, the interval is still registered with its counter at 0 and
    no break-over notification has been emitted.  Only the eleventh tick, at
    14 500, emits it, drops the interval and registers the zero-delay
    callback that re-arms the scheduler. *)
Theorem C8_break_over_on_eleventh_tick :
  let started := run (firstn 6 restSession_tenTicks) initialWorld in
  let ten := run restSession_tenTicks initialWorld in
  let eleven := run restSession_eleventhTick initialWorld in
  admissibleTrace 0 restSession_rearmed initialWorld = true
  /\ findTimer 6 started = Some (mkTimer 6 (inject_Z 4500) (CountdownTick 10))
  /\ running ten = true
  /\ restingShown ten = 10%nat
  /\ breakOverShown ten = false
  /\ findTimer 6 ten = Some (mkTimer 6 (inject_Z 14500) (CountdownTick 0))
  /\ armedBreakOver ten = []
  /\ restingShown eleven = 11%nat
  /\ breakOverShown eleven = true
  /\ findTimer 6 eleven = None
  /\ armedBreakOver eleven = [mkTimer 18 (inject_Z 14500) BreakOver]
  /\ map handle (armedRestTriggers (run restSession_rearmed initialWorld))
     = [1%nat; 19%nat].
Proof. vm_compute. repeat split. Qed.

(** * Further properties of the handlers *)

(** ** The branches of the two schedulers, one equation each *)

Lemma running_true w :
  running w = true <->
  isActive (pomodoroState w) = true /\ isPaused (pomodoroState w) = false.
Proof.
  unfold running. rewrite andb_true_iff, negb_true_iff. tauto.
Qed.

Lemma paused_true w :
  paused w = true <->
  isActive (pomodoroState w) = true /\ isPaused (pomodoroState w) = true.
Proof. unfold paused. now rewrite andb_true_iff. Qed.

Lemma scheduleNextBreak_idle now rnd w :
  running w = false -> scheduleNextBreak now rnd w = w.
Proof.
  unfold running, scheduleNextBreak. cbv zeta.
  destruct (isActive _), (isPaused _); simpl; congruence.
Qed.

Lemma scheduleNextBreak_completes now rnd w :
  running w = true -> totalDuration (pomodoroState w) <= getElapsedTime now w ->
  scheduleNextBreak now rnd w = endPomodoro now w.
Proof.
  intros R T. apply running_true in R as [Ha Hp].
  unfold scheduleNextBreak. cbv zeta. rewrite Ha, Hp. simpl.
  apply Z.leb_le in T. now rewrite T.
Qed.

Lemma scheduleNextBreak_arms now rnd w :
  running w = true -> getElapsedTime now w < totalDuration (pomodoroState w) ->
  scheduleNextBreak now rnd w =
  w |> setCurrentTimer (Some (nextHandle w))
    |> setTimeout RestTrigger (inject_Z now + randomInterval rnd (pomodoroState w))%Q.
Proof.
  intros R T. apply running_true in R as [Ha Hp].
  unfold scheduleNextBreak. cbv zeta. rewrite Ha, Hp. simpl.
  apply Z.leb_gt in T. now rewrite T.
Qed.

Lemma updateStatusBar_inactive now w :
  isActive (pomodoroState w) = false ->
  updateStatusBar now w = setStatusBarItem NotStarted w.
Proof. apply updateStatusBar_fuel_inactive. Qed.

Lemma updateStatusBar_paused now w :
  paused w = true ->
  updateStatusBar now w =
  setStatusBarItem (PausedText (minutesOf (remainingTime now w))
                               (secondsOf (remainingTime now w))) w.
Proof.
  intros P. apply paused_true in P as [Ha Hp].
  rewrite updateStatusBar_unfold. cbv zeta. now rewrite Ha, Hp.
Qed.

Lemma updateStatusBar_completes now w :
  running w = true -> totalDuration (pomodoroState w) <= getElapsedTime now w ->
  updateStatusBar now w = endPomodoro now w.
Proof.
  intros R T. apply running_true in R as [Ha Hp].
  rewrite updateStatusBar_unfold. cbv zeta. rewrite Ha, Hp. simpl.
  assert (E : (totalDuration (pomodoroState w) - getElapsedTime now w <=? 0) = true)
    by (apply Z.leb_le; lia).
  now rewrite E.
Qed.

Lemma updateStatusBar_running now w :
  running w = true -> getElapsedTime now w < totalDuration (pomodoroState w) ->
  updateStatusBar now w =
  w |> setStatusBarItem (RunningText (minutesOf (remainingTime now w))
                                     (secondsOf (remainingTime now w)))
    |> setTimeout StatusTick (inject_Z (now + 1000)).
Proof.
  intros R T. apply running_true in R as [Ha Hp].
  rewrite updateStatusBar_unfold. cbv zeta. rewrite Ha, Hp. simpl.
  assert (E : (totalDuration (pomodoroState w) - getElapsedTime now w <=? 0) = false)
    by (apply Z.leb_gt; lia).
  now rewrite E.
Qed.

(** ** The lifecycle transitions, one equation each *)

Lemma startPomodoro_eq now rnd w :
  0 < totalDuration (pomodoroState w) ->
  startPomodoro now rnd w =
  w |> assign (started now)
    |> setStatusBarItem
         (RunningText (minutesOf (totalDuration (pomodoroState w)))
                      (secondsOf (totalDuration (pomodoroState w))))
    |> setTimeout StatusTick (inject_Z (now + 1000))
    |> setCurrentTimer (Some (S (nextHandle w)))
    |> setTimeout RestTrigger (inject_Z now + randomInterval rnd (pomodoroState w))%Q
    |> notify MsgStarted.
Proof.
  intros T. unfold startPomodoro.
  change (assign (setPausedTime 0) (assign (setStartTime now)
            (assign (setIsPaused false) (assign (setIsActive true) w))))
    with (assign (started now) w).
  assert (E : getElapsedTime now (assign (started now) w) = 0)
    by (unfold getElapsedTime; simpl; lia).
  rewrite updateStatusBar_running; [|reflexivity | rewrite E; exact T].
  unfold remainingTime. rewrite E.
  rewrite scheduleNextBreak_arms; [|reflexivity|].
  - simpl. now rewrite Z.sub_0_r.
  - unfold getElapsedTime. simpl. lia.
Qed.

Lemma pausePomodoro_eq now w :
  running w = true ->
  pausePomodoro now w =
  w |> assign (banked now)
    |> clearCurrentTimer
    |> setStatusBarItem (PausedText (minutesOf (remainingTime now w))
                                    (secondsOf (remainingTime now w)))
    |> notify MsgPaused.
Proof.
  intros R. pose proof R as R'. apply running_true in R' as [Ha Hp].
  unfold pausePomodoro. cbv zeta. rewrite Ha, Hp. simpl negb. simpl orb. cbv iota.
  change (assign (fun s => setPausedTime (pausedTime s + (now - startTime s)) s)
            (assign (setIsPaused true) w))
    with (assign (banked now) w).
  rewrite updateStatusBar_paused.
  - f_equal. f_equal.
    assert (E : remainingTime now (clearCurrentTimer (assign (banked now) w))
                = remainingTime now w).
    { unfold remainingTime, getElapsedTime. cbv zeta.
      rewrite state_clearCurrentTimer, state_assign. simpl. now rewrite Hp. }
    now rewrite E.
  - apply paused_true. rewrite state_clearCurrentTimer, state_assign. simpl. auto.
Qed.

Lemma resumePomodoro_eq now rnd w :
  paused w = true -> pausedTime (pomodoroState w) < totalDuration (pomodoroState w) ->
  resumePomodoro now rnd w =
  w |> assign (resumed now)
    |> setStatusBarItem
         (RunningText
            (minutesOf (totalDuration (pomodoroState w) - pausedTime (pomodoroState w)))
            (secondsOf (totalDuration (pomodoroState w) - pausedTime (pomodoroState w))))
    |> setTimeout StatusTick (inject_Z (now + 1000))
    |> setCurrentTimer (Some (S (nextHandle w)))
    |> setTimeout RestTrigger (inject_Z now + randomInterval rnd (pomodoroState w))%Q
    |> notify MsgResumed.
Proof.
  intros P T. apply paused_true in P as [Ha Hp].
  unfold resumePomodoro. cbv zeta. rewrite Ha, Hp. simpl negb. simpl orb. cbv iota.
  change (assign (setStartTime now) (assign (setIsPaused false) w))
    with (assign (resumed now) w).
  assert (R : running (assign (resumed now) w) = true)
    by (apply running_true; simpl; auto).
  assert (E : getElapsedTime now (assign (resumed now) w) = pausedTime (pomodoroState w))
    by (unfold getElapsedTime; simpl; lia).
  rewrite updateStatusBar_running; [|exact R | rewrite E; exact T].
  unfold remainingTime. rewrite E.
  rewrite scheduleNextBreak_arms.
  - reflexivity.
  - apply running_true. simpl. auto.
  - unfold getElapsedTime. simpl. lia.
Qed.

Lemma resumePomodoro_overdue_eq now rnd w :
  paused w = true -> totalDuration (pomodoroState w) <= pausedTime (pomodoroState w) ->
  resumePomodoro now rnd w =
  w |> assign (resumed now) |> endPomodoro now |> notify MsgResumed.
Proof.
  intros P T. apply paused_true in P as [Ha Hp].
  unfold resumePomodoro. cbv zeta. rewrite Ha, Hp. simpl negb. simpl orb. cbv iota.
  change (assign (setStartTime now) (assign (setIsPaused false) w))
    with (assign (resumed now) w).
  rewrite updateStatusBar_completes.
  - rewrite scheduleNextBreak_idle; [reflexivity|].
    unfold running. now rewrite state_endPomodoro.
  - apply running_true. simpl. auto.
  - unfold getElapsedTime. simpl. lia.
Qed.

(** ** Start, pause and resume as a user sees them *)

Lemma startPomodoro_effect : forall now rnd w,
  0 < totalDuration (pomodoroState w) ->
  let w' := startPomodoro now rnd w in
  running w' = true
  /\ getElapsedTime now w' = 0
  /\ timers w' =
       timers w ++
       [ mkTimer (nextHandle w) (inject_Z (now + 1000)) StatusTick;
         mkTimer (S (nextHandle w))
                 (inject_Z now + randomInterval rnd (pomodoroState w))%Q RestTrigger ]
  /\ currentTimer w' = Some (S (nextHandle w))
  /\ shown w' = shown w ++ [MsgStarted]
  /\ openDialogs w' = openDialogs w.
Proof.
  intros now rnd w T w'. subst w'. rewrite (startPomodoro_eq _ _ _ T).
  repeat split.
  - unfold getElapsedTime. simpl. lia.
  - simpl. now rewrite <- app_assoc.
Qed.

(** X1. Starting a session (lines 70-80), whatever the world before, as
    long as [totalDuration] is positive (it is never assigned): the
    session is Running with nothing elapsed, exactly two callbacks are
    added to the queue (the one-second status tick and the rest trigger,
    the latter tracked by [currentTimer]), nothing already pending is
    cancelled, and the "started" message is shown. *)
Theorem start_opens_fresh_session : forall now rnd w,
  0 < totalDuration (pomodoroState w) ->
  let w' := startPomodoro now rnd w in
  running w' = true
  /\ getElapsedTime now w' = 0
  /\ timers w' =
       timers w ++
       [ mkTimer (nextHandle w) (inject_Z (now + 1000)) StatusTick;
         mkTimer (S (nextHandle w))
                 (inject_Z now + randomInterval rnd (pomodoroState w))%Q RestTrigger ]
  /\ currentTimer w' = Some (S (nextHandle w))
  /\ shown w' = shown w ++ [MsgStarted]
  /\ openDialogs w' = openDialogs w.
Proof.
  intros now rnd w T w'. subst w'. rewrite (startPomodoro_eq _ _ _ T).
  repeat split.
  - unfold getElapsedTime. simpl. lia.
  - simpl. now rewrite <- app_assoc.
Qed.

Lemma start_opens_fresh_session_witness :
  let w' := startPomodoro 1000 half initialWorld in
  running w' = true
  /\ getElapsedTime 1000 w' = 0
  /\ map handle (timers w') = [0%nat; 1%nat]
  /\ currentTimer w' = Some 1%nat.
Proof.
  cbv zeta.
  assert (T : 0 < totalDuration (pomodoroState initialWorld)) by reflexivity.
  destruct (start_opens_fresh_session 1000 half initialWorld T)
    as (R & E & Q & C & _).
  split; [exact R|]. split; [exact E|]. split; [rewrite Q; reflexivity | exact C].
Defined.



Lemma pausePomodoro_effect : forall now w,
  running w = true ->
  let w' := pausePomodoro now w in
  paused w' = true
  /\ (forall t, getElapsedTime t w' = getElapsedTime now w)
  /\ currentTimer w' = None
  /\ timers w' = withoutCurrent w
  /\ nextHandle w' = nextHandle w
  /\ statusBarItem w' = PausedText (minutesOf (remainingTime now w))
                                   (secondsOf (remainingTime now w))
  /\ shown w' = shown w ++ [MsgPaused].
Proof.
  intros now w R w'. subst w'. rewrite (pausePomodoro_eq _ _ R).
  pose proof R as R'. apply running_true in R' as [Ha Hp].
  assert (S : pomodoroState
                (notify MsgPaused
                   (setStatusBarItem
                      (PausedText (minutesOf (remainingTime now w))
                                  (secondsOf (remainingTime now w)))
                      (clearCurrentTimer (assign (banked now) w))))
              = banked now (pomodoroState w))
    by now autorewrite with frame.
  split; [apply paused_true; rewrite S; simpl; auto|].
  split.
  { intros t. unfold getElapsedTime. cbv zeta. rewrite S. simpl. now rewrite Hp. }
  unfold withoutCurrent, clearCurrentTimer.
  destruct w as [s ct sb ts nh od sh]. simpl. destruct ct; simpl; repeat split.
Qed.

(** X3. Pausing a Running session (lines 83-99) freezes the elapsed time at
    its value at the pause: read at any later clock value it is what it was
    at [now].  The tracked wake-up is cancelled and forgotten, every other
    pending callback stays, the status bar shows the remaining time as of
    the pause and the "paused" message is shown. *)
Theorem pause_freezes_elapsed : forall now w,
  running w = true ->
  let w' := pausePomodoro now w in
  paused w' = true
  /\ (forall t, getElapsedTime t w' = getElapsedTime now w)
  /\ currentTimer w' = None
  /\ timers w' = withoutCurrent w
  /\ nextHandle w' = nextHandle w
  /\ statusBarItem w' = PausedText (minutesOf (remainingTime now w))
                                   (secondsOf (remainingTime now w))
  /\ shown w' = shown w ++ [MsgPaused].
Proof.
  intros now w R w'. subst w'. rewrite (pausePomodoro_eq _ _ R).
  pose proof R as R'. apply running_true in R' as [Ha Hp].
  assert (S : pomodoroState
                (notify MsgPaused
                   (setStatusBarItem
                      (PausedText (minutesOf (remainingTime now w))
                                  (secondsOf (remainingTime now w)))
                      (clearCurrentTimer (assign (banked now) w))))
              = banked now (pomodoroState w))
    by now autorewrite with frame.
  split; [apply paused_true; rewrite S; simpl; auto|].
  split.
  { intros t. unfold getElapsedTime. cbv zeta. rewrite S. simpl. now rewrite Hp. }
  unfold withoutCurrent, clearCurrentTimer.
  destruct w as [s ct sb ts nh od sh]. simpl. destruct ct; simpl; repeat split.
Qed.

Lemma pause_freezes_elapsed_witness :
  let w := startPomodoro 0 half initialWorld in
  let w' := pausePomodoro 60000 w in
  running w = true
  /\ getElapsedTime 999999 w' = 60000
  /\ currentTimer w' = None
  /\ map handle (timers w') = [0%nat].
Proof.
  cbv zeta.
  assert (R : running (startPomodoro 0 half initialWorld) = true)
    by (vm_compute; reflexivity).
  destruct (pause_freezes_elapsed 60000 _ R) as (_ & E & C & Q & _).
  split; [exact R|]. split; [rewrite E; vm_compute; reflexivity|].
  split; [exact C | rewrite Q; vm_compute; reflexivity].
Defined.



(** X5. Resuming a session whose banked time has reached [totalDuration]
    (lines 102-113 with 267-273) does not resume it: the status bar's
    completion check ends the session inside [resumePomodoro], the
    completion dialog opens, no callback is registered, and the "resumed"
    message is nevertheless shown, after the dialog. *)
Theorem resume_overdue_completes : forall now rnd w,
  paused w = true ->
  totalDuration (pomodoroState w) <= pausedTime (pomodoroState w) ->
  let w' := resumePomodoro now rnd w in
  isActive (pomodoroState w') = false
  /\ isPaused (pomodoroState w') = false
  /\ currentTimer w' = None
  /\ timers w' = withoutCurrent w
  /\ nextHandle w' = nextHandle w
  /\ openDialogs w' = S (openDialogs w)
  /\ statusBarItem w' = NotStarted
  /\ shown w' = shown w ++ [DialogCompleted; MsgResumed].
Proof.
  intros now rnd w P T w'. subst w'.
  rewrite (resumePomodoro_overdue_eq _ _ _ P T), endPomodoro_unfold.
  unfold withoutCurrent, clearCurrentTimer.
  destruct w as [s ct sb ts nh od sh]. simpl.
  destruct ct; simpl; rewrite <- ?app_assoc; repeat split.
Qed.

Lemma resume_overdue_completes_witness :
  let w := pausePomodoro 6000000 (startPomodoro 0 half initialWorld) in
  let w' := resumePomodoro 7000000 half w in
  paused w = true
  /\ isActive (pomodoroState w') = false
  /\ openDialogs w' = 1%nat
  /\ shown w' = [MsgStarted; MsgPaused; DialogCompleted; MsgResumed].
Proof.
  cbv zeta.
  set (w := pausePomodoro 6000000 (startPomodoro 0 half initialWorld)).
  assert (P : paused w = true) by (vm_compute; reflexivity).
  assert (T : totalDuration (pomodoroState w) <= pausedTime (pomodoroState w))
    by (vm_compute; discriminate).
  destruct (resume_overdue_completes 7000000 half w P T)
    as (A & _ & _ & _ & _ & D & _ & S).
  split; [exact P|]. split; [exact A|].
  split; [rewrite D; vm_compute; reflexivity | rewrite S; vm_compute; reflexivity].
Defined.

(** X6. With a clock that does not go back, neither a pause nor a resume
    makes the elapsed time smaller, valid or not: read at [t3] after a call
    at [t2] it is at least what it was at [t1], for [t1 <= t2 <= t3]. *)
Theorem elapsed_never_decreases : forall t1 t2 t3 rnd w,
  t1 <= t2 -> t2 <= t3 ->
  (running w = true -> startTime (pomodoroState w) <= t1) ->
  getElapsedTime t1 w <= getElapsedTime t3 (pausePomodoro t2 w)
  /\ getElapsedTime t1 w <= getElapsedTime t3 (resumePomodoro t2 rnd w).
Proof.
  intros t1 t2 t3 rnd w H12 H23 Hs. split.
  - destruct (running w) eqn:R.
    + destruct (pausePomodoro_effect t2 w R) as (_ & E & _). cbv zeta in E.
      rewrite E. apply running_true in R as [_ Hp].
      unfold getElapsedTime. cbv zeta. rewrite Hp. lia.
    + rewrite (pausePomodoro_noop _ _ R).
      unfold getElapsedTime. cbv zeta. destruct (isPaused _); lia.
  - destruct (paused w) eqn:P.
    + pose proof P as P'. apply paused_true in P' as [_ Hp].
      unfold getElapsedTime. cbv zeta. rewrite Hp.
      destruct (state_resumePomodoro t2 rnd w P) as [E|E]; rewrite E; simpl; lia.
    + rewrite (resumePomodoro_noop _ _ _ P).
      unfold getElapsedTime. cbv zeta. destruct (isPaused _); lia.
Qed.

Lemma elapsed_never_decreases_witness :
  let w := startPomodoro 0 half initialWorld in
  getElapsedTime 100 w <= getElapsedTime 300 (pausePomodoro 200 w)
  /\ getElapsedTime 100 w <= getElapsedTime 300 (resumePomodoro 200 half w).
Proof.
  cbv zeta.
  apply (elapsed_never_decreases 100 200 300 half (startPomodoro 0 half initialWorld)).
  - vm_compute. discriminate.
  - vm_compute. discriminate.
  - intros _. vm_compute. discriminate.
Defined.

(** ** The status bar *)

Lemma minutes_seconds_split r :
  0 <= r ->
  0 <= minutesOf r
  /\ 0 <= secondsOf r <= 59
  /\ minutesOf r * 60000 + secondsOf r * 1000 <= r
  /\ r < minutesOf r * 60000 + secondsOf r * 1000 + 1000.
Proof.
  intros Hr. unfold minutesOf, secondsOf.
  change (1000 * 60) with 60000.
  rewrite Z.rem_mod_nonneg by lia.
  pose proof (Z.div_mod r 60000 ltac:(lia)) as D.
  pose proof (Z.mod_pos_bound r 60000 ltac:(lia)) as B.
  pose proof (Z.div_mod (r mod 60000) 1000 ltac:(lia)) as D'.
  pose proof (Z.mod_pos_bound (r mod 60000) 1000 ltac:(lia)) as B'.
  assert (0 <= r / 60000) by (apply Z.div_pos; lia).
  assert (0 <= r mod 60000 / 1000) by (apply Z.div_pos; lia).
  assert (r mod 60000 / 1000 <= 59) by (apply Z.lt_succ_r, Z.div_lt_upper_bound; lia).
  lia.
Qed.

Lemma minutes_negative r : r < 0 -> minutesOf r < 0 /\ -60 <= secondsOf r <= 0.
Proof.
  intros Hr. unfold minutesOf, secondsOf. change (1000 * 60) with 60000.
  split; Z.to_euclidean_division_equations; lia.
Qed.

(** X7. While time remains, the status bar of a Running or Paused session
    (lines 256-279) shows the remaining time split into whole minutes and
    whole seconds: the seconds field is between 0 and 59, the minutes field
    is not negative, and together they are the remaining time rounded down
    to the second.  A Running render also registers the next one-second
    tick; a Paused render registers nothing. *)
Theorem status_bar_shows_remaining_time : forall now w,
  isActive (pomodoroState w) = true ->
  0 < remainingTime now w ->
  let r := remainingTime now w in
  let w' := updateStatusBar now w in
  statusBarItem w' =
    (if isPaused (pomodoroState w)
     then PausedText (minutesOf r) (secondsOf r)
     else RunningText (minutesOf r) (secondsOf r))
  /\ 0 <= minutesOf r
  /\ 0 <= secondsOf r <= 59
  /\ minutesOf r * 60000 + secondsOf r * 1000 <= r
       < minutesOf r * 60000 + secondsOf r * 1000 + 1000
  /\ timers w' =
       (if isPaused (pomodoroState w) then timers w
        else timers w ++ [mkTimer (nextHandle w) (inject_Z (now + 1000)) StatusTick])
  /\ pomodoroState w' = pomodoroState w.
Proof.
  intros now w Ha Hr r w'.
  destruct (minutes_seconds_split r ltac:(unfold r; lia)) as (M & S & L & U).
  assert (Hw : statusBarItem w' =
                 (if isPaused (pomodoroState w)
                  then PausedText (minutesOf r) (secondsOf r)
                  else RunningText (minutesOf r) (secondsOf r))
               /\ timers w' =
                 (if isPaused (pomodoroState w) then timers w
                  else timers w ++
                       [mkTimer (nextHandle w) (inject_Z (now + 1000)) StatusTick])
               /\ pomodoroState w' = pomodoroState w).
  { subst w'. destruct (isPaused (pomodoroState w)) eqn:Hp.
    - rewrite updateStatusBar_paused by (apply paused_true; auto). repeat split.
    - rewrite updateStatusBar_running; [repeat split | apply running_true; auto|].
      unfold remainingTime in Hr. lia. }
  destruct Hw as (H1 & H2 & H3). repeat split; auto; lia.
Qed.

Lemma status_bar_shows_remaining_time_witness :
  let w := startPomodoro 0 half initialWorld in
  statusBarItem (updateStatusBar 61500 w) = RunningText 88 58
  /\ statusBarItem (updateStatusBar 99999 (pausePomodoro 61500 w)) = PausedText 88 58.
Proof.
  cbv zeta. split.
  - assert (A : isActive (pomodoroState (startPomodoro 0 half initialWorld)) = true)
      by (vm_compute; reflexivity).
    assert (R : 0 < remainingTime 61500 (startPomodoro 0 half initialWorld))
      by (vm_compute; reflexivity).
    destruct (status_bar_shows_remaining_time 61500 _ A R) as (E & _).
    rewrite E. vm_compute. reflexivity.
  - set (w := pausePomodoro 61500 (startPomodoro 0 half initialWorld)).
    assert (A : isActive (pomodoroState w) = true) by (vm_compute; reflexivity).
    assert (R : 0 < remainingTime 99999 w) by (vm_compute; reflexivity).
    destruct (status_bar_shows_remaining_time 99999 w A R) as (E & _).
    rewrite E. vm_compute. reflexivity.
Defined.

(** X8. Completion is checked by the status bar only while Running (lines
    256-273).  Once the elapsed time has reached [totalDuration], a render
    of a Running session ends it (the completion dialog opens and no
    further tick is registered), whereas a render of a Paused session
    leaves record, queue and dialogs alone and, when the banked time is
    beyond [totalDuration], shows a negative minutes field. *)
Theorem completion_checked_only_while_running : forall now w,
  totalDuration (pomodoroState w) <= getElapsedTime now w ->
  (running w = true ->
     updateStatusBar now w = endPomodoro now w
     /\ isActive (pomodoroState (updateStatusBar now w)) = false
     /\ nextHandle (updateStatusBar now w) = nextHandle w
     /\ openDialogs (updateStatusBar now w) = S (openDialogs w))
  /\ (paused w = true ->
     pomodoroState (updateStatusBar now w) = pomodoroState w
     /\ timers (updateStatusBar now w) = timers w
     /\ openDialogs (updateStatusBar now w) = openDialogs w
     /\ (totalDuration (pomodoroState w) < getElapsedTime now w ->
         statusBarItem (updateStatusBar now w)
           = PausedText (minutesOf (remainingTime now w)) (secondsOf (remainingTime now w))
         /\ minutesOf (remainingTime now w) < 0
         /\ secondsOf (remainingTime now w) <= 0)).
Proof.
  intros now w T. split.
  - intros R. rewrite (updateStatusBar_completes _ _ R T).
    destruct (endPomodoro_fields now w) as (_ & _ & Hn & _ & Hd).
    rewrite state_endPomodoro. repeat split; auto.
  - intros P. rewrite (updateStatusBar_paused _ _ P). repeat split.
    + apply minutes_negative. unfold remainingTime. lia.
    + apply minutes_negative. unfold remainingTime. lia.
Qed.

Lemma completion_checked_only_while_running_witness :
  let w := startPomodoro 0 half initialWorld in
  let p := pausePomodoro 5461500 w in
  isActive (pomodoroState (updateStatusBar 5400000 w)) = false
  /\ openDialogs (updateStatusBar 5400000 w) = 1%nat
  /\ isActive (pomodoroState (updateStatusBar 5500000 p)) = true
  /\ statusBarItem (updateStatusBar 5500000 p) = PausedText (-2) (-2).
Proof.
  cbv zeta.
  set (w := startPomodoro 0 half initialWorld).
  set (p := pausePomodoro 5461500 w).
  assert (T : totalDuration (pomodoroState w) <= getElapsedTime 5400000 w)
    by (vm_compute; discriminate).
  assert (R : running w = true) by (vm_compute; reflexivity).
  destruct (proj1 (completion_checked_only_while_running 5400000 w T) R)
    as (_ & A & _ & D).
  assert (T' : totalDuration (pomodoroState p) <= getElapsedTime 5500000 p)
    by (vm_compute; discriminate).
  assert (P : paused p = true) by (vm_compute; reflexivity).
  destruct (proj2 (completion_checked_only_while_running 5500000 p T') P)
    as (S & _ & _ & V).
  assert (L : totalDuration (pomodoroState p) < getElapsedTime 5500000 p)
    by (vm_compute; reflexivity).
  destruct (V L) as (E & _).
  split; [exact A|]. split; [rewrite D; reflexivity|].
  split; [rewrite S; vm_compute; reflexivity | rewrite E; vm_compute; reflexivity].
Defined.

(** ** Callbacks that find the session not Running *)

(** X9. A rest trigger, status tick, countdown tick or break-over callback
    that fires while the session is not Running (paused, stopped, reset or
    completed) does nothing: the world afterwards is the world before with
    that callback gone from the queue.  The rest prompt's callback (line
    160) has no such check and registers the countdown interval
    regardless. *)
Theorem callbacks_inert_unless_running : forall h now rnd w t,
  running w = false ->
  findTimer h w = Some t ->
  (callback t <> RestPrompt -> fire h now rnd w = clearTimeout h w)
  /\ (callback t = RestPrompt ->
      fire h now rnd w =
      setTimeout (CountdownTick 10) (inject_Z (now + 1000)) (clearTimeout h w)).
Proof.
  intros h now rnd w t R F. unfold fire. rewrite F.
  assert (R' : running (clearTimeout h w) = false) by exact R.
  unfold runCallback. split; intros C.
  - destruct (callback t); try congruence.
    + now rewrite R'.
    + now rewrite R'.
    + now apply countdownTick_aborts.
    + now apply scheduleNextBreak_idle.
  - rewrite C. reflexivity.
Qed.

Lemma callbacks_inert_unless_running_witness :
  let w := pausePomodoro 500 (restCommand 100 (startPomodoro 0 half initialWorld)) in
  running w = false
  /\ map handle (timers w) = [0%nat; 2%nat]
  /\ fire 0 1000 half w = clearTimeout 0 w
  /\ map callback (timers (fire 2 3100 half w)) = [StatusTick; CountdownTick 10].
Proof.
  cbv zeta.
  set (w := pausePomodoro 500 (restCommand 100 (startPomodoro 0 half initialWorld))).
  assert (R : running w = false) by (vm_compute; reflexivity).
  assert (F0 : findTimer 0 w = Some (mkTimer 0 (inject_Z 1000) StatusTick))
    by (vm_compute; reflexivity).
  assert (F2 : findTimer 2 w = Some (mkTimer 2 (inject_Z 3100) RestPrompt))
    by (vm_compute; reflexivity).
  split; [exact R|]. split; [vm_compute; reflexivity|]. split.
  - apply (proj1 (callbacks_inert_unless_running 0 1000 half w _ R F0)).
    simpl. discriminate.
  - rewrite (proj2 (callbacks_inert_unless_running 2 3100 half w _ R F2) eq_refl).
    vm_compute. reflexivity.
Defined.

(** ** The completion dialog and shutdown *)

(** X10. Answering the completion dialog (lines 237-245): "again" after a
    completion starts a fresh session (Running, nothing elapsed, a new rest
    trigger tracked) and closes the dialog; any other answer closes the
    dialog and leaves the session completed. *)
Theorem again_restarts_after_completion : forall now0 now rnd w,
  0 < totalDuration (pomodoroState w) ->
  let completed := endPomodoro now0 w in
  (let w' := selectCompletion true now rnd completed in
   running w' = true
   /\ getElapsedTime now w' = 0
   /\ openDialogs w' = openDialogs w
   /\ currentTimer w' = Some (S (nextHandle w)))
  /\ (let w' := selectCompletion false now rnd completed in
      pomodoroState w' = pomodoroState completed
      /\ isActive (pomodoroState w') = false
      /\ openDialogs w' = openDialogs w
      /\ timers w' = timers completed).
Proof.
  intros now0 now rnd w T completed.
  destruct (endPomodoro_fields now0 w) as (Hc & Ht & Hn & _ & Hd).
  fold completed in Hc, Ht, Hn, Hd.
  assert (S : pomodoroState completed = ended (pomodoroState w))
    by apply state_endPomodoro.
  unfold selectCompletion. rewrite Hd. split.
  - assert (T' : 0 < totalDuration (pomodoroState (setOpenDialogs (openDialogs w) completed)))
      by (rewrite state_setOpenDialogs, S; exact T).
    destruct (startPomodoro_effect now rnd _ T') as (R & E & _ & C & _ & D).
    cbv zeta in R, E, C, D. repeat split; auto.
    rewrite C. f_equal. f_equal. exact Hn.
  - cbv zeta. rewrite state_setOpenDialogs, S. repeat split.
Qed.

Lemma again_restarts_after_completion_witness :
  let completed := endPomodoro 5400000 (startPomodoro 0 half initialWorld) in
  let w' := selectCompletion true 5405000 half completed in
  running w' = true /\ getElapsedTime 5405000 w' = 0 /\ openDialogs w' = 0%nat.
Proof.
  cbv zeta.
  assert (T : 0 < totalDuration (pomodoroState (startPomodoro 0 half initialWorld)))
    by (vm_compute; reflexivity).
  destruct (proj1 (again_restarts_after_completion 5400000 5405000 half _ T))
    as (R & E & D & _).
  split; [exact R|]. split; [exact E|]. rewrite D. vm_compute. reflexivity.
Defined.

(** X11. Shutdown (lines 296-303) takes out of the queue exactly what a stop
    would, namely the callback tracked by [currentTimer], but it does not
    end the session: the record and [currentTimer] keep their values, so
    status ticks and countdown ticks that are still pending find the
    session as it was. *)
Theorem deactivate_cancels_tracked_only : forall now w,
  timers (finalWorld (deactivate w)) = withoutCurrent w
  /\ timers (finalWorld (deactivate w)) = timers (stopPomodoro now w)
  /\ pomodoroState (finalWorld (deactivate w)) = pomodoroState w
  /\ currentTimer (finalWorld (deactivate w)) = currentTimer w
  /\ shown (finalWorld (deactivate w)) = shown w
  /\ statusBarDisposed (deactivate w) = true.
Proof.
  intros now w. destruct (stopPomodoro_fields now w) as (_ & Ht & _).
  rewrite Ht. unfold deactivate, withoutCurrent. simpl.
  destruct (currentTimer w) eqn:E; simpl; rewrite ?E; repeat split.
Qed.

(** ** The timer queue stays well formed *)

Lemma run_world_invariant (P : World -> Prop) :
  (forall i w, P w -> P (step i w)) ->
  forall trace w, P w -> P (run trace w).
Proof.
  intros Hstep trace. induction trace as [|i trace IH]; intros w Hw; [exact Hw|].
  simpl. apply IH, Hstep, Hw.
Qed.

Lemma NoDup_handles_filter p (l : list Timer) :
  NoDup (map handle l) -> NoDup (map handle (filter p l)).
Proof.
  induction l as [|a l IH]; simpl; intros H; [constructor|].
  inversion H as [|x xs Hnotin Hrest]; subst.
  destruct (p a); simpl; auto. constructor; auto.
  intros Hin. apply Hnotin.
  apply in_map_iff in Hin as (t & Et & Hin).
  apply filter_In in Hin as [Hin _]. apply in_map_iff. eauto.
Qed.

Lemma handle_filtered_out h (l : list Timer) :
  ~ In h (map handle (filter (fun t => negb (Nat.eqb (handle t) h)) l)).
Proof.
  intros Hin. apply in_map_iff in Hin as (t & Et & Hin).
  apply filter_In in Hin as [_ Hne]. apply negb_true_iff, Nat.eqb_neq in Hne.
  contradiction.
Qed.

Lemma queueOk_frame w w' :
  currentTimer w' = currentTimer w -> timers w' = timers w ->
  nextHandle w' = nextHandle w -> queueOk w -> queueOk w'.
Proof.
  unfold queueOk, handlesFresh, handlesDistinct, trackedIsRestTrigger.
  intros Ec Et En. rewrite Ec, Et, En. auto.
Qed.

Lemma queueOk_assign f w : queueOk w -> queueOk (assign f w).
Proof. now apply queueOk_frame. Qed.

Lemma queueOk_notify n w : queueOk w -> queueOk (notify n w).
Proof. now apply queueOk_frame. Qed.

Lemma queueOk_setStatusBarItem t w : queueOk w -> queueOk (setStatusBarItem t w).
Proof. now apply queueOk_frame. Qed.

Lemma queueOk_setOpenDialogs n w : queueOk w -> queueOk (setOpenDialogs n w).
Proof. now apply queueOk_frame. Qed.

Lemma handlesFresh_setTimeout cb d w :
  handlesFresh w -> handlesFresh (setTimeout cb d w).
Proof.
  unfold handlesFresh. simpl. intros F. apply Forall_app. split.
  - eapply Forall_impl; [|exact F]. simpl. lia.
  - constructor; [simpl; lia | constructor].
Qed.

Lemma handlesDistinct_setTimeout cb d w :
  handlesFresh w -> handlesDistinct w -> handlesDistinct (setTimeout cb d w).
Proof.
  unfold handlesFresh, handlesDistinct. simpl. intros F D.
  rewrite map_app. apply NoDup_app; [exact D | |].
  - simpl. constructor; [intros [] | constructor].
  - intros a Ha [E|[]]. simpl in E. subst a.
    apply in_map_iff in Ha as (t & Et & Hin).
    rewrite Forall_forall in F. specialize (F t Hin). lia.
Qed.

Lemma queueOk_setTimeout cb d w : queueOk w -> queueOk (setTimeout cb d w).
Proof.
  intros (F & D & T). split; [|split].
  - now apply handlesFresh_setTimeout.
  - now apply handlesDistinct_setTimeout.
  - intros h Hh. destruct (T h Hh) as [Hlt Hcb]. split; [simpl; lia|].
    simpl. intros t Hin Et. apply in_app_or in Hin as [Hin|[E|[]]]; [auto|].
    subst t. simpl in Et. lia.
Qed.

Lemma queueOk_arm d w :
  queueOk w ->
  queueOk (setTimeout RestTrigger d (setCurrentTimer (Some (nextHandle w)) w)).
Proof.
  intros (F & D & T). split; [|split].
  - now apply (handlesFresh_setTimeout RestTrigger d w).
  - now apply (handlesDistinct_setTimeout RestTrigger d w).
  - intros h Hh. simpl in Hh. injection Hh as <-. split; [simpl; lia|].
    simpl. intros t Hin Et. apply in_app_or in Hin as [Hin|[E|[]]].
    + unfold handlesFresh in F. rewrite Forall_forall in F.
      specialize (F t Hin). lia.
    + now subst t.
Qed.

Lemma queueOk_clearTimeout h w : queueOk w -> queueOk (clearTimeout h w).
Proof.
  intros (F & D & T). split; [|split].
  - unfold handlesFresh in *. simpl. rewrite Forall_forall in *.
    intros t Hin. apply filter_In in Hin as [Hin _]. auto.
  - unfold handlesDistinct in *. simpl. now apply NoDup_handles_filter.
  - intros h' Hh. destruct (T h' Hh) as [Hlt Hcb]. split; [exact Hlt|].
    simpl. intros t Hin. apply filter_In in Hin as [Hin _]. auto.
Qed.

Lemma queueOk_untrack w : queueOk w -> queueOk (setCurrentTimer None w).
Proof.
  intros (F & D & T). split; [|split]; auto. intros h Hh. discriminate Hh.
Qed.

Lemma queueOk_clearCurrentTimer w : queueOk w -> queueOk (clearCurrentTimer w).
Proof.
  intros H. unfold clearCurrentTimer. destruct (currentTimer w); [|exact H].
  now apply queueOk_untrack, queueOk_clearTimeout.
Qed.

Lemma queueOk_keepInterval h cb d w :
  queueOk w -> (h < nextHandle w)%nat -> ~ In h (map handle (timers w)) ->
  currentTimer w <> Some h ->
  queueOk (keepInterval h cb d w).
Proof.
  intros (F & D & T) Hlt Hnew Hc. split; [|split].
  - unfold handlesFresh in *. simpl. apply Forall_app. split; [exact F|].
    constructor; [exact Hlt | constructor].
  - unfold handlesDistinct in *. simpl. rewrite map_app.
    apply NoDup_app; [exact D | |].
    + simpl. constructor; [intros [] | constructor].
    + intros a Ha [E|[]]. simpl in E. now subst a.
  - intros h' Hh. simpl in Hh. destruct (T h' Hh) as [Hlt' Hcb].
    split; [exact Hlt'|]. simpl. intros t Hin Et.
    apply in_app_or in Hin as [Hin|[E|[]]]; [auto|].
    subst t. simpl in Et. subst h'. contradiction.
Qed.

Create HintDb queue.

#[local] Hint Resolve queueOk_assign queueOk_notify queueOk_setStatusBarItem
  queueOk_setOpenDialogs queueOk_setTimeout queueOk_arm queueOk_clearTimeout
  queueOk_clearCurrentTimer : queue.

Lemma queueOk_endPomodoro now w : queueOk w -> queueOk (endPomodoro now w).
Proof. intros H. rewrite endPomodoro_unfold. auto 10 with queue. Qed.

Lemma queueOk_updateStatusBar now w : queueOk w -> queueOk (updateStatusBar now w).
Proof.
  intros H. rewrite updateStatusBar_unfold. cbv zeta.
  destruct (negb _); [auto with queue|].
  destruct (isPaused _); [auto with queue|].
  destruct (_ <=? 0); [now apply queueOk_endPomodoro | auto with queue].
Qed.

Lemma queueOk_scheduleNextBreak now rnd w :
  queueOk w -> queueOk (scheduleNextBreak now rnd w).
Proof.
  intros H. unfold scheduleNextBreak. cbv zeta.
  destruct (_ || _); [exact H|].
  destruct (_ <=? _); [now apply queueOk_endPomodoro | auto with queue].
Qed.

#[local] Hint Resolve queueOk_endPomodoro queueOk_updateStatusBar
  queueOk_scheduleNextBreak : queue.

Lemma queueOk_startPomodoro now rnd w :
  queueOk w -> queueOk (startPomodoro now rnd w).
Proof. intros H. unfold startPomodoro. auto 12 with queue. Qed.

Lemma queueOk_pausePomodoro now w : queueOk w -> queueOk (pausePomodoro now w).
Proof.
  intros H. unfold pausePomodoro. cbv zeta.
  destruct (_ || _); auto 12 with queue.
Qed.

Lemma queueOk_resumePomodoro now rnd w :
  queueOk w -> queueOk (resumePomodoro now rnd w).
Proof.
  intros H. unfold resumePomodoro. cbv zeta.
  destruct (_ || _); auto 12 with queue.
Qed.

Lemma queueOk_resetPomodoro now w : queueOk w -> queueOk (resetPomodoro now w).
Proof.
  intros H. unfold resetPomodoro, stopPomodoro. auto 12 with queue.
Qed.

Lemma queueOk_countdownTick h c now w :
  queueOk w -> (h < nextHandle w)%nat -> ~ In h (map handle (timers w)) ->
  currentTimer w <> Some h ->
  queueOk (countdownTick h c now w).
Proof.
  intros H Hlt Hnew Hc. unfold countdownTick. cbv zeta.
  destruct (_ || _); [exact H|].
  destruct (0 <? c); [|auto 6 with queue].
  apply queueOk_keepInterval; auto with queue.
Qed.

Lemma queueOk_fire h now rnd w : queueOk w -> queueOk (fire h now rnd w).
Proof.
  intros H. unfold fire. destruct (findTimer h w) as [t|] eqn:F; [|exact H].
  apply find_some in F as [Hin Eh]. apply Nat.eqb_eq in Eh.
  pose proof (queueOk_clearTimeout h w H) as H1.
  unfold runCallback. destruct (callback t) eqn:C.
  - destruct (running _); [|exact H1]. unfold triggerRestBreak.
    destruct (_ || _); auto with queue.
  - destruct (running _); auto with queue.
  - unfold startRestCountdown. auto with queue.
  - destruct H as (Fr & D & T). apply queueOk_countdownTick; [exact H1 | | |].
    + unfold handlesFresh in Fr. rewrite Forall_forall in Fr.
      specialize (Fr t Hin). simpl. lia.
    + rewrite Eh. apply handle_filtered_out.
    + simpl. intros Hc. destruct (T _ Hc) as [_ Hcb].
      specialize (Hcb t Hin eq_refl). congruence.
  - auto with queue.
Qed.

Lemma queueOk_step i w : queueOk w -> queueOk (step i w).
Proof.
  intros H. unfold step. destruct (event i) as [| | |h|again].
  - unfold toggleCommand. cbv zeta. destruct (_ && _);
      [now apply queueOk_pausePomodoro|].
    destruct (isPaused _);
      [now apply queueOk_resumePomodoro | now apply queueOk_startPomodoro].
  - unfold restCommand, triggerRestBreak. cbv zeta.
    destruct (_ && _); [|exact H]. destruct (_ || _); auto with queue.
  - now apply queueOk_resetPomodoro.
  - now apply queueOk_fire.
  - unfold selectCompletion. destruct (openDialogs w); [exact H|].
    destruct again; [apply queueOk_startPomodoro|]; auto with queue.
Qed.

(** X12. After any sequence of commands, timer callbacks and dialog answers
    the timer queue is well formed: pending callbacks have pairwise
    distinct handles, all issued earlier, and the handle kept in
    [currentTimer] can only belong to a rest trigger.  Pause, stop, reset,
    completion and shutdown, which clear [currentTimer], therefore never
    cancel a status tick, a rest prompt or a running countdown. *)
Theorem queue_stays_well_formed : forall trace,
  let w := run trace initialWorld in
  handlesDistinct w
  /\ handlesFresh w
  /\ trackedIsRestTrigger w
  /\ (forall t, In t (timers w) -> callback t <> RestTrigger ->
        In t (timers (clearCurrentTimer w))).
Proof.
  intros trace w.
  assert (H : queueOk w).
  { apply (run_world_invariant queueOk); [exact queueOk_step|].
    split; [constructor | split; [constructor | intros h Hh; discriminate Hh]]. }
  destruct H as (F & D & T). repeat split; auto; try apply T; auto.
  intros t Hin Hcb. unfold clearCurrentTimer.
  destruct (currentTimer w) as [h|] eqn:E; [|exact Hin].
  simpl. apply filter_In. split; [exact Hin|].
  apply negb_true_iff, Nat.eqb_neq. intros Eh.
  destruct (T h E) as [_ Hr]. apply Hcb, Hr; auto.
Qed.

(** ** A wake-up is tracked only while Running *)

Lemma tracked_frame w w' :
  pomodoroState w' = pomodoroState w -> currentTimer w' = currentTimer w ->
  trackedOnlyWhileRunning w -> trackedOnlyWhileRunning w'.
Proof.
  unfold trackedOnlyWhileRunning, running. intros Es Ec. now rewrite Es, Ec.
Qed.

Lemma tracked_running w : running w = true -> trackedOnlyWhileRunning w.
Proof. unfold trackedOnlyWhileRunning. congruence. Qed.

Lemma tracked_none w : currentTimer w = None -> trackedOnlyWhileRunning w.
Proof. unfold trackedOnlyWhileRunning. auto. Qed.

Lemma currentTimer_clearCurrentTimer w : currentTimer (clearCurrentTimer w) = None.
Proof. unfold clearCurrentTimer. destruct (currentTimer w) eqn:E; [reflexivity | exact E]. Qed.

Lemma tracked_notify n w :
  trackedOnlyWhileRunning w -> trackedOnlyWhileRunning (notify n w).
Proof. now apply tracked_frame. Qed.

Lemma tracked_setTimeout cb d w :
  trackedOnlyWhileRunning w -> trackedOnlyWhileRunning (setTimeout cb d w).
Proof. now apply tracked_frame. Qed.

Lemma tracked_setStatusBarItem t w :
  trackedOnlyWhileRunning w -> trackedOnlyWhileRunning (setStatusBarItem t w).
Proof. now apply tracked_frame. Qed.

Lemma tracked_endPomodoro now w : trackedOnlyWhileRunning (endPomodoro now w).
Proof. apply tracked_none. now destruct (endPomodoro_fields now w). Qed.

Lemma tracked_updateStatusBar now w :
  trackedOnlyWhileRunning w -> trackedOnlyWhileRunning (updateStatusBar now w).
Proof.
  intros H. rewrite updateStatusBar_unfold. cbv zeta.
  destruct (negb _); [now apply tracked_setStatusBarItem|].
  destruct (isPaused _); [now apply tracked_setStatusBarItem|].
  destruct (_ <=? 0); [apply tracked_endPomodoro|].
  now apply tracked_setTimeout, tracked_setStatusBarItem.
Qed.

Lemma tracked_scheduleNextBreak now rnd w :
  trackedOnlyWhileRunning w -> trackedOnlyWhileRunning (scheduleNextBreak now rnd w).
Proof.
  intros H. destruct (running w) eqn:R.
  - destruct (Z.le_gt_cases (totalDuration (pomodoroState w)) (getElapsedTime now w))
      as [T|T].
    + rewrite (scheduleNextBreak_completes _ _ _ R T). apply tracked_endPomodoro.
    + rewrite (scheduleNextBreak_arms _ _ _ R T). now apply tracked_running.
  - now rewrite (scheduleNextBreak_idle _ _ _ R).
Qed.

Create HintDb tracking.

#[local] Hint Resolve tracked_notify tracked_setTimeout tracked_setStatusBarItem
  tracked_endPomodoro tracked_updateStatusBar tracked_scheduleNextBreak : tracking.

Lemma tracked_startPomodoro now rnd w :
  trackedOnlyWhileRunning (startPomodoro now rnd w).
Proof.
  unfold startPomodoro.
  apply tracked_notify, tracked_scheduleNextBreak, tracked_updateStatusBar,
    tracked_running. reflexivity.
Qed.

Lemma tracked_pausePomodoro now w :
  trackedOnlyWhileRunning w -> trackedOnlyWhileRunning (pausePomodoro now w).
Proof.
  intros H. unfold pausePomodoro. cbv zeta. destruct (_ || _); [exact H|].
  apply tracked_notify, tracked_updateStatusBar, tracked_none,
    currentTimer_clearCurrentTimer.
Qed.

Lemma tracked_resumePomodoro now rnd w :
  trackedOnlyWhileRunning w -> trackedOnlyWhileRunning (resumePomodoro now rnd w).
Proof.
  intros H. unfold resumePomodoro. cbv zeta.
  destruct (isActive (pomodoroState w)) eqn:Ha, (isPaused (pomodoroState w)) eqn:Hp;
    simpl; try exact H.
  apply tracked_notify, tracked_scheduleNextBreak, tracked_updateStatusBar,
    tracked_running, running_true. simpl. auto.
Qed.

Lemma tracked_resetPomodoro now w : trackedOnlyWhileRunning (resetPomodoro now w).
Proof.
  unfold resetPomodoro.
  apply tracked_notify, tracked_updateStatusBar, tracked_none.
  simpl. now destruct (stopPomodoro_fields now w).
Qed.

Lemma tracked_triggerRestBreak now w :
  trackedOnlyWhileRunning w -> trackedOnlyWhileRunning (triggerRestBreak now w).
Proof.
  intros H. unfold triggerRestBreak. cbv zeta. destruct (_ || _); [exact H|].
  unfold playNotificationSound. auto with tracking.
Qed.

Lemma tracked_fire h now rnd w :
  trackedOnlyWhileRunning w -> trackedOnlyWhileRunning (fire h now rnd w).
Proof.
  intros H. unfold fire. destruct (findTimer h w) as [t|]; [|exact H].
  assert (H1 : trackedOnlyWhileRunning (clearTimeout h w))
    by (revert H; now apply tracked_frame).
  unfold runCallback. destruct (callback t).
  - destruct (running _); [now apply tracked_triggerRestBreak | exact H1].
  - destruct (running _); auto with tracking.
  - unfold startRestCountdown. auto with tracking.
  - revert H1. apply tracked_frame; [apply state_countdownTick|].
    unfold countdownTick. cbv zeta. destruct (_ || _); [reflexivity|].
    destruct (0 <? _); reflexivity.
  - auto with tracking.
Qed.

Lemma tracked_step i w :
  trackedOnlyWhileRunning w -> trackedOnlyWhileRunning (step i w).
Proof.
  intros H. unfold step. destruct (event i) as [| | |h|again].
  - unfold toggleCommand. cbv zeta. destruct (_ && _);
      [now apply tracked_pausePomodoro|].
    destruct (isPaused _);
      [now apply tracked_resumePomodoro | apply tracked_startPomodoro].
  - unfold restCommand. cbv zeta.
    destruct (_ && _); [now apply tracked_triggerRestBreak | exact H].
  - apply tracked_resetPomodoro.
  - now apply tracked_fire.
  - unfold selectCompletion. destruct (openDialogs w); [exact H|].
    destruct again; [apply tracked_startPomodoro|].
    revert H. now apply tracked_frame.
Qed.

(** X13. After any sequence of commands, timer callbacks and dialog answers,
    [currentTimer] holds a handle only while the session is Running: in a
    paused, stopped, reset or completed session it is [undefined], so the
    next start or resume tracks a wake-up of its own. *)
Theorem wake_up_tracked_only_while_running : forall trace,
  running (run trace initialWorld) = false ->
  currentTimer (run trace initialWorld) = None.
Proof.
  intros trace.
  apply (run_world_invariant trackedOnlyWhileRunning); [exact tracked_step|].
  intros _. reflexivity.
Qed.

Lemma wake_up_tracked_only_while_running_witness :
  let paused1 := run [ev 0 Toggle; ev 700 Toggle] initialWorld in
  running paused1 = false /\ currentTimer paused1 = None.
Proof.
  cbv zeta.
  assert (R : running (run [ev 0 Toggle; ev 700 Toggle] initialWorld) = false)
    by (vm_compute; reflexivity).
  split; [exact R|].
  exact (wake_up_tracked_only_while_running [ev 0 Toggle; ev 700 Toggle] R).
Defined.

(** ** The rest countdown in any Running session *)

Lemma find_app_last h d cb (l : list Timer) :
  Forall (fun t => (handle t < h)%nat) l ->
  find (fun t => Nat.eqb (handle t) h) (l ++ [mkTimer h d cb]) = Some (mkTimer h d cb).
Proof.
  induction l as [|a l IH]; intros F; simpl.
  - now rewrite Nat.eqb_refl.
  - inversion F as [|x xs Ha Hl]; subst.
    assert (E : Nat.eqb (handle a) h = false) by (apply Nat.eqb_neq; lia).
    rewrite E. now apply IH.
Qed.

Lemma filter_app_last h d cb (l : list Timer) :
  Forall (fun t => (handle t < h)%nat) l ->
  filter (fun t => negb (Nat.eqb (handle t) h)) (l ++ [mkTimer h d cb]) = l.
Proof.
  induction l as [|a l IH]; intros F; simpl.
  - now rewrite Nat.eqb_refl.
  - inversion F as [|x xs Ha Hl]; subst.
    assert (E : Nat.eqb (handle a) h = false) by (apply Nat.eqb_neq; lia).
    rewrite E. simpl. f_equal. now apply IH.
Qed.

Lemma countingDown_fire w h c k w' t rnd :
  running w = true -> handlesFresh w -> h = nextHandle w ->
  countingDown w h c k w' ->
  fire h t rnd w' = countdownTick h c t (setTimers (timers w) w').
Proof.
  intros R F Eh (Es & Ec & En & Esh & d & Et).
  unfold handlesFresh in F. rewrite <- Eh in F.
  unfold fire, findTimer. rewrite Et, (find_app_last h d _ _ F).
  unfold runCallback, clearTimeout. simpl. now rewrite Et, (filter_app_last h d _ _ F).
Qed.

Lemma countingDown_tick w h c k w' t rnd :
  running w = true -> handlesFresh w -> h = nextHandle w ->
  countingDown w h c k w' -> 0 < c ->
  countingDown w h (c - 1) (S k) (fire h t rnd w').
Proof.
  intros R F Eh H Hc. rewrite (countingDown_fire w h c k w' t rnd R F Eh H).
  destruct H as (Es & Ec & En & Esh & d & Et).
  rewrite countdownTick_counts; [|unfold running in *; simpl; now rewrite Es | exact Hc].
  repeat split; simpl; auto.
  - rewrite Esh, <- app_assoc. f_equal. symmetry. apply repeat_cons.
  - eexists. reflexivity.
Qed.

Lemma countingDown_last_tick w h c k w' t rnd :
  running w = true -> handlesFresh w -> h = nextHandle w ->
  countingDown w h c k w' -> c <= 0 ->
  pomodoroState (fire h t rnd w') = pomodoroState w
  /\ currentTimer (fire h t rnd w') = currentTimer w
  /\ shown (fire h t rnd w') = shown w ++ repeat MsgResting (S k) ++ [ProgressBreakOver]
  /\ timers (fire h t rnd w') = timers w ++ [mkTimer (S h) (inject_Z (t + 0)) BreakOver].
Proof.
  intros R F Eh H Hc. rewrite (countingDown_fire w h c k w' t rnd R F Eh H).
  destruct H as (Es & Ec & En & Esh & d & Et).
  rewrite countdownTick_finishes; [|unfold running in *; simpl; now rewrite Es | exact Hc].
  repeat split; simpl; auto.
  - rewrite Esh, <- !app_assoc. f_equal.
    change (MsgResting :: repeat MsgResting k ++ [ProgressBreakOver])
      with ((MsgResting :: repeat MsgResting k) ++ [ProgressBreakOver]).
    rewrite repeat_cons, <- app_assoc. reflexivity.
  - now rewrite En.
Qed.

Lemma countingDown_run w h rnd :
  running w = true -> handlesFresh w -> h = nextHandle w ->
  forall times c k w',
    countingDown w h c k w' -> Z.of_nat (length times) <= c ->
    countingDown w h (c - Z.of_nat (length times)) (k + length times)
      (run (fireAt h rnd times) w').
Proof.
  intros R F Eh times. induction times as [|t times IH]; intros c k w' H Hc.
  - simpl. now rewrite Z.sub_0_r, Nat.add_0_r.
  - simpl length in *. simpl run.
    replace (c - Z.of_nat (S (length times)))
      with ((c - 1) - Z.of_nat (length times)) by lia.
    replace (k + S (length times))%nat with (S k + length times)%nat by lia.
    apply IH; [|lia].
    apply (countingDown_tick w h c k w' t rnd R F Eh H). lia.
Qed.



(** ** A handle that has fired *)

Lemma filter_absent_handle h (l : list Timer) :
  ~ In h (map handle l) ->
  filter (fun t => negb (Nat.eqb (handle t) h)) l = l.
Proof.
  intros Hn. apply forallb_filter_id, forallb_forall. intros t Hin.
  apply negb_true_iff, Nat.eqb_neq. intros E. apply Hn, in_map_iff. eauto.
Qed.

(** X15. When the tracked rest trigger fires in a Running session (lines
    213-217) it posts the rest prompt and [currentTimer] is left holding
    the handle that has just fired.  With a well-formed queue that stale
    handle is harmless: no pending callback carries it, so a pause right
    after cancels nothing. *)
Theorem stale_handle_is_harmless : forall h now now' rnd w,
  queueOk w -> running w = true -> currentTimer w = Some h ->
  findTimer h w <> None ->
  let w1 := fire h now rnd w in
  currentTimer w1 = Some h
  /\ findTimer h w1 = None
  /\ timers w1 = withoutCurrent w
                 ++ [mkTimer (nextHandle w) (inject_Z (now + 3000)) RestPrompt]
  /\ shown w1 = shown w ++ [ProgressRestTime]
  /\ timers (pausePomodoro now' w1) = timers w1.
Proof.
  intros h now now' rnd w (F & D & T) R C Hf w1.
  destruct (findTimer h w) as [t|] eqn:Ef; [clear Hf | contradiction].
  pose proof Ef as Ef'. apply find_some in Ef' as [Hin Eh]. apply Nat.eqb_eq in Eh.
  destruct (T h C) as [Hlt Hcb]. specialize (Hcb t Hin Eh).
  assert (E1 : w1 = triggerRestBreak now (clearTimeout h w)).
  { subst w1. unfold fire. rewrite Ef. unfold runCallback. rewrite Hcb.
    assert (R' : running (clearTimeout h w) = true) by exact R. now rewrite R'. }
  pose proof R as R'. apply running_true in R' as [Ha Hp].
  assert (E2 : w1 = clearTimeout h w |> notify ProgressRestTime
                    |> setTimeout RestPrompt (inject_Z (now + 3000))).
  { rewrite E1. unfold triggerRestBreak. cbv zeta. simpl pomodoroState.
    now rewrite Ha, Hp. }
  assert (Habs : ~ In h (map handle (timers w1))).
  { rewrite E2. simpl. rewrite map_app. intros Hi. apply in_app_or in Hi as [Hi|[E|[]]].
    - now apply handle_filtered_out in Hi.
    - simpl in E. lia. }
  assert (Ec : currentTimer w1 = Some h) by (rewrite E2; exact C).
  split; [exact Ec|]. split.
  { unfold findTimer. destruct (find _ (timers w1)) as [t'|] eqn:Ef1; [|reflexivity].
    apply find_some in Ef1 as [Hin' Eh']. apply Nat.eqb_eq in Eh'.
    exfalso. apply Habs, in_map_iff. eauto. }
  split; [rewrite E2; unfold withoutCurrent; rewrite C; reflexivity|].
  split; [rewrite E2; reflexivity|].
  assert (R1 : running w1 = true) by (rewrite E2; exact R).
  destruct (pausePomodoro_effect now' w1 R1) as (_ & _ & _ & Q & _).
  cbv zeta in Q. rewrite Q. unfold withoutCurrent. rewrite Ec.
  now apply filter_absent_handle.
Qed.

Lemma stale_handle_is_harmless_witness :
  let w := startPomodoro 0 half initialWorld in
  let w1 := fire 1 240000 half w in
  currentTimer w = Some 1%nat
  /\ currentTimer w1 = Some 1%nat
  /\ findTimer 1 w1 = None
  /\ timers (pausePomodoro 240500 w1) = timers w1.
Proof.
  cbv zeta.
  set (w := startPomodoro 0 half initialWorld).
  assert (Q : queueOk w).
  { apply queueOk_startPomodoro.
    split; [constructor | split; [constructor | intros h Hh; discriminate Hh]]. }
  assert (R : running w = true) by (vm_compute; reflexivity).
  assert (C : currentTimer w = Some 1%nat) by (vm_compute; reflexivity).
  assert (Hf : findTimer 1 w <> None) by (vm_compute; discriminate).
  destruct (stale_handle_is_harmless 1 240000 240500 half w Q R C Hf)
    as (C1 & F1 & _ & _ & P1).
  split; [exact C|]. split; [exact C1|]. split; [exact F1 | exact P1].
Defined.

(** ** Reset *)

Lemma resetPomodoro_eq now w :
  resetPomodoro now w =
  w |> assign (fun s => setPausedTime 0 (setStartTime 0 (ended s)))
    |> clearCurrentTimer
    |> setStatusBarItem NotStarted
    |> notify MsgReset.
Proof.
  unfold resetPomodoro. rewrite stopPomodoro_unfold.
  rewrite updateStatusBar_inactive by (now autorewrite with frame).
  unfold clearCurrentTimer. destruct w as [s ct sb ts nh od sh]. simpl.
  destruct ct; reflexivity.
Qed.

Lemma resetPomodoro_fields now w :
  statusBarItem (resetPomodoro now w) = NotStarted
  /\ currentTimer (resetPomodoro now w) = None
  /\ timers (resetPomodoro now w) = withoutCurrent w
  /\ shown (resetPomodoro now w) = shown w ++ [MsgReset].
Proof.
  rewrite resetPomodoro_eq. unfold withoutCurrent, clearCurrentTimer.
  destruct w as [s ct sb ts nh od sh]. simpl. destruct ct; repeat split.
Qed.

Lemma resetPomodoro_twice now now' w :
  resetPomodoro now' (resetPomodoro now w) = notify MsgReset (resetPomodoro now w).
Proof.
  rewrite (resetPomodoro_eq now'), (resetPomodoro_eq now).
  unfold clearCurrentTimer. destruct w as [s ct sb ts nh od sh]. simpl.
  destruct ct; reflexivity.
Qed.

(** X16. Resetting, after any sequence of commands, timer callbacks and
    dialog answers, brings the session record back to exactly the record
    the extension was activated with; the status bar reads "not started",
    nothing is tracked, the tracked wake-up (if any) is gone from the queue
    and the reset message is shown.  A second reset changes nothing but
    the message list. *)
Theorem reset_restores_initial_record : forall trace now now',
  let w := run trace initialWorld in
  let w' := resetPomodoro now w in
  pomodoroState w' = initialState
  /\ statusBarItem w' = NotStarted
  /\ currentTimer w' = None
  /\ timers w' = withoutCurrent w
  /\ shown w' = shown w ++ [MsgReset]
  /\ resetPomodoro now' w' = notify MsgReset w'.
Proof.
  intros trace now now' w w'.
  destruct (run_constants trace) as (Ht & Hmin & Hmax & Hr). fold w in Ht, Hmin, Hmax, Hr.
  destruct (resetPomodoro_fields now w) as (F1 & F2 & F3 & F4).
  split.
  { unfold w'. rewrite state_resetPomodoro.
    destruct (pomodoroState w) as [a p st pt td imin imax rd]. simpl in *.
    subst. reflexivity. }
  repeat split; auto. apply resetPomodoro_twice.
Qed.

(** ** Elapsed time under a monotone clock *)

Lemma clockOk_later prev t s : clockOk prev s -> prev <= t -> clockOk t s.
Proof. unfold clockOk. lia. Qed.

Lemma clockOk_ended prev s : clockOk prev s -> clockOk prev (ended s).
Proof. unfold clockOk. simpl. auto. Qed.

Lemma clockOk_keepsOrEnds f prev t w :
  keepsOrEnds f -> clockOk prev (pomodoroState w) -> prev <= t ->
  clockOk t (pomodoroState (f w)).
Proof.
  intros Hf H Ht. destruct (Hf w) as [E|E]; rewrite E;
    [|apply clockOk_ended]; now apply (clockOk_later prev).
Qed.

Lemma clockOk_startPomodoro prev t rnd w :
  clockOk prev (pomodoroState w) -> prev <= t ->
  clockOk t (pomodoroState (startPomodoro t rnd w)).
Proof.
  intros (H0 & H1 & H2) Ht.
  destruct (state_startPomodoro t rnd w) as [E|E]; rewrite E;
    unfold clockOk; simpl; lia.
Qed.

Lemma clockOk_step prev i w :
  clockOk prev (pomodoroState w) -> prev <= at_time i ->
  clockOk (at_time i) (pomodoroState (step i w)).
Proof.
  intros H Ht. pose proof H as (H0 & H1 & H2).
  unfold step. destruct (event i) as [| | |h|again].
  - unfold toggleCommand. cbv zeta.
    destruct (isActive (pomodoroState w) && negb (isPaused (pomodoroState w))) eqn:R.
    + change (running w = true) in R. rewrite (state_pausePomodoro _ _ R).
      unfold clockOk. simpl. lia.
    + destruct (isPaused (pomodoroState w)) eqn:Hp;
        [|now apply (clockOk_startPomodoro prev)].
      destruct (paused w) eqn:P.
      * destruct (state_resumePomodoro (at_time i) (random i) w P) as [E|E];
          rewrite E; unfold clockOk; simpl; lia.
      * rewrite (resumePomodoro_noop _ _ _ P). now apply (clockOk_later prev).
  - unfold restCommand. cbv zeta. destruct (_ && _);
      autorewrite with frame; now apply (clockOk_later prev).
  - unfold resetCommand. rewrite state_resetPomodoro. unfold clockOk. simpl. lia.
  - unfold fire. destruct (findTimer h w) as [t|]; [|now apply (clockOk_later prev)].
    apply (clockOk_keepsOrEnds _ prev); [apply keepsOrEnds_runCallback | exact H | exact Ht].
  - unfold selectCompletion. destruct (openDialogs w) as [|n];
      [now apply (clockOk_later prev)|].
    destruct again; [|now apply (clockOk_later prev)].
    now apply (clockOk_startPomodoro prev).
Qed.

Lemma clockOk_run trace : forall prev w,
  clockOk prev (pomodoroState w) -> clockMonotone prev trace ->
  clockOk (lastTime prev trace) (pomodoroState (run trace w)).
Proof.
  induction trace as [|i trace IH]; intros prev w H M; [exact H|].
  destruct M as [Ht M]. simpl. apply IH; [|exact M].
  now apply (clockOk_step prev).
Qed.

(** X17. If the clock never goes back (and starts at a non-negative value),
    then after any sequence of commands, timer callbacks and dialog answers
    the banked time is not negative, the clock mark is not in the future,
    and the elapsed time read at any later clock value is not negative; the
    remaining time shown by the status bar is therefore at most
    [totalDuration], that is at most 90 whole minutes. *)
Theorem elapsed_time_is_never_negative : forall trace prev now,
  0 <= prev -> clockMonotone prev trace -> lastTime prev trace <= now ->
  let w := run trace initialWorld in
  0 <= pausedTime (pomodoroState w)
  /\ startTime (pomodoroState w) <= lastTime prev trace
  /\ 0 <= getElapsedTime now w
  /\ remainingTime now w <= 5400000
  /\ minutesOf (remainingTime now w) <= 90.
Proof.
  intros trace prev now H0 M Hn w.
  assert (H : clockOk (lastTime prev trace) (pomodoroState w)).
  { apply clockOk_run; [|exact M]. unfold clockOk. simpl. lia. }
  destruct H as (_ & Hp & Hs).
  destruct (run_constants trace) as (Ht & _). fold w in Ht. simpl in Ht.
  assert (E : 0 <= getElapsedTime now w).
  { unfold getElapsedTime. cbv zeta. destruct (isPaused _); lia. }
  assert (Rm : remainingTime now w <= 5400000)
    by (unfold remainingTime; rewrite Ht; lia).
  repeat split; auto.
  unfold minutesOf. change (1000 * 60) with 60000.
  Z.to_euclidean_division_equations. lia.
Qed.

Lemma elapsed_time_is_never_negative_witness :
  let trace := [ev 1000 Toggle; ev 61000 Toggle; ev 121000 Toggle] in
  let w := run trace initialWorld in
  0 <= getElapsedTime 151000 w
  /\ getElapsedTime 151000 w = 90000
  /\ minutesOf (remainingTime 151000 w) <= 90.
Proof.
  cbv zeta.
  assert (H0 : 0 <= 0) by lia.
  assert (M : clockMonotone 0 [ev 1000 Toggle; ev 61000 Toggle; ev 121000 Toggle]).
  { simpl. repeat split; vm_compute; discriminate. }
  assert (Hn : lastTime 0 [ev 1000 Toggle; ev 61000 Toggle; ev 121000 Toggle] <= 151000)
    by (vm_compute; discriminate).
  destruct (elapsed_time_is_never_negative _ 0 151000 H0 M Hn) as (_ & _ & E & _ & Mn).
  split; [exact E|]. split; [vm_compute; reflexivity | exact Mn].
Defined.
